(** * The node-splitting pipeline of [xml_splitter_app_codellama_chroma.py]

    A shallow embedding of [split_xml_node] and [ask_codellama], and the
    properties of the pipeline that the specification states.

    Python [str] values are sequences of Unicode code points.  The tree is
    lxml's: every node carries its direct [text], its [tail] and its ordered
    children; a node is named by the path of child indices leading to it from
    the root.  The lxml entry points the function calls (the two parsers, the
    XPath evaluator and the serialiser) and the HTTP endpoint are parameters
    of the embedding. *)

From Stdlib Require Import Ascii String.
From Stdlib Require Import List NArith Bool Arith Lia Sorted RelationClasses.
From Stdlib Require DecimalNat DecimalString.
Import ListNotations.

Set Implicit Arguments.

(** ** Python strings *)

Module Py.

Definition char := N.
Definition str := list char.

(** An ASCII literal of the source, as a [str]. *)
Definition lit (s : string) : str := map N_of_ascii (list_ascii_of_string s).

Definition nl : str := [10%N].

Definition str_eqb (a b : str) : bool :=
  if list_eq_dec N.eq_dec a b then true else false.

(** [bool(s)] for a [str]: the empty string is falsy. *)
Definition truthy (s : str) : bool :=
  match s with [] => false | _ :: _ => true end.

(** [c.isspace()] : the code points CPython's [str.strip()] removes. *)
Definition isspace (c : char) : bool :=
  ((9 <=? c) && (c <=? 13) || (28 <=? c) && (c <=? 32)
   || (c =? 133) || (c =? 160) || (c =? 5760)
   || (8192 <=? c) && (c <=? 8202)
   || (c =? 8232) || (c =? 8233) || (c =? 8239) || (c =? 8287)
   || (c =? 12288))%N.

Fixpoint lstrip (s : str) : str :=
  match s with
  | [] => []
  | c :: s' => if isspace c then lstrip s' else s
  end.

Definition rstrip (s : str) : str := rev (lstrip (rev s)).

(** [s.strip()] *)
Definition strip (s : str) : str := rstrip (lstrip s).

End Py.
Import Py.

(** ** The pattern [<\?xml[^>]+\?>] and [re.sub] with an empty replacement

    A backtracking matcher in continuation style: each piece of the pattern
    takes the matcher of what follows it and returns the length of the match
    that starts at the head of the text. *)

Module Re.

Definition matcher := str -> option nat.

Definition finish : matcher := fun _ => Some 0.

(** A literal run of characters. *)
Fixpoint literal (p : str) (k : matcher) (s : str) : option nat :=
  match p with
  | [] => k s
  | c :: p' =>
      match s with
      | [] => None
      | x :: s' => if (x =? c)%N then option_map S (literal p' k s') else None
      end
  end.

(** [[^c]+], greedy: the longest run is tried first, and a character is
    given back each time the rest of the pattern fails. *)
Fixpoint plus_not (c : char) (k : matcher) (s : str) : option nat :=
  match s with
  | [] => None
  | x :: s' =>
      if (x =? c)%N then None
      else match plus_not c k s' with
           | Some n => Some (S n)
           | None => option_map S (k s')
           end
  end.

(** [<\?xml[^>]+\?>] *)
Definition xml_decl : matcher :=
  literal (lit "<?xml") (plus_not 62%N (literal (lit "?>") finish)).

(** [re.sub(pattern, '', s)]: the text is scanned from the left; where the
    pattern matches, the match is dropped and the scan resumes after it.
    [skip] counts the characters of the current match still to drop. *)
Fixpoint sub_from (m : matcher) (skip : nat) (s : str) : str :=
  match s with
  | [] => []
  | x :: s' =>
      match skip with
      | S n => sub_from m n s'
      | O =>
          match m s with
          | Some (S n) => sub_from m n s'
          | _ => x :: sub_from m 0 s'
          end
      end
  end.

Definition sub (m : matcher) (s : str) : str := sub_from m 0 s.

(** The pattern occurs somewhere in the text. *)
Fixpoint occurs (m : matcher) (s : str) : bool :=
  match s with
  | [] => false
  | _ :: s' => match m s with Some _ => true | None => occurs m s' end
  end.

End Re.

(** Line 16: [re.sub(r'<\?xml[^>]+\?>', '', xml_content).strip()] *)
Definition remove_declaration (xml_content : str) : str :=
  strip (Re.sub Re.xml_decl xml_content).


(** ** lxml trees *)

(** A node of an lxml tree.  [text] is the text before the first child,
    [tail] the text between the node's end and its next sibling; both are
    [None] when there is none.  Comments and processing instructions are
    children as well: lxml hands them out with their content as [text], and
    [tag] then stands for how their tag object prints. *)
#[warnings="-register-all"]
Inductive node : Type :=
  Node { tag : str;
         attrib : list (str * str);
         text : option str;
         children : list node;
         tail : option str }.

Definition with_children (n : node) (cs : list node) : node :=
  Node (tag n) (attrib n) (text n) cs (tail n).

(** A node of a document, named by the child indices from the root. *)
Definition path := list nat.

Fixpoint get (t : node) (p : path) : option node :=
  match p with
  | [] => Some t
  | i :: p' =>
      match nth_error (children t) i with
      | Some c => get c p'
      | None => None
      end
  end.

(** Apply [f] to the element at position [i] of a list. *)
Fixpoint map_nth {A} (i : nat) (f : A -> A) (l : list A) : list A :=
  match l with
  | [] => []
  | x :: l' =>
      match i with
      | O => f x :: l'
      | S j => x :: map_nth j f l'
      end
  end.

(** In-place update of the child list of the node at [pp]. *)
Fixpoint set_children_at (pp : path) (f : list node -> list node) (t : node)
  : node :=
  match pp with
  | [] => with_children t (f (children t))
  | i :: pp' => with_children t (map_nth i (set_children_at pp' f) (children t))
  end.

(** [node.getparent()] together with [parent.index(node)]: the path of the
    parent and the position among its children; [None] for a node without a
    parent. *)
Fixpoint split_last (p : path) : option (path * nat) :=
  match p with
  | [] => None
  | i :: q =>
      match split_last q with
      | None => Some ([], i)
      | Some (pp, j) => Some (i :: pp, j)
      end
  end.

(** [parent.remove(node)] for the child at position [i]; the tail text
    leaves with the node. *)
Definition remove_nth {A} (i : nat) (l : list A) : list A :=
  firstn i l ++ skipn (S i) l.

(** [parent.insert(index, element)]: before the child now at [index], at
    the end when there is none. *)
Definition insert_at {A} (i : nat) (x : A) (l : list A) : list A :=
  firstn i l ++ x :: skipn i l.

(** The list [l] with the run [xs] put in at position [i]: what inserting
    the elements of [xs] one after the other from [i] on amounts to. *)
Definition ins {A} (i : nat) (xs l : list A) : list A :=
  firstn i l ++ xs ++ skipn i l.

(** Document order on paths: a node comes before its descendants, and
    subtrees follow the order of the children. *)
Fixpoint doc_before (p q : path) : bool :=
  match p, q with
  | [], [] => false
  | [], _ :: _ => true
  | _ :: _, [] => false
  | i :: p', j :: q' =>
      (i <? j) || ((i =? j) && doc_before p' q')
  end.

(** ** Outcomes *)

(** The exceptions the function can leave through. *)
Inductive exn : Type :=
| XMLSyntaxError                 (* lxml, from the recovering parser *)
| XPathEvalError                 (* lxml, from [root.xpath] *)
| IndexError                     (* [...][0] on an empty sequence *)
| TypeError                      (* [...][0] on a float or a bool *)
| AttributeError                 (* an attribute of [None], [.text] of a str *)
| Exception (msg : str).         (* [raise Exception(msg)] *)

Inductive outcome (A : Type) : Type :=
| Return (a : A)
| Raise (e : exn).
Arguments Return {A} a.
Arguments Raise {A} e.

(** Computations over the document tree, which they may mutate in place:
    the tree goes in, and comes out as it stands when the computation
    returns or raises. *)
Definition M (A : Type) : Type := node -> outcome A * node.

Definition ret {A} (a : A) : M A := fun doc => (Return a, doc).
Definition raise {A} (e : exn) : M A := fun doc => (Raise e, doc).
Definition bind {A B} (m : M A) (k : A -> M B) : M B :=
  fun doc =>
    match m doc with
    | (Return a, doc') => k a doc'
    | (Raise e, doc') => (Raise e, doc')
    end.
Definition read : M node := fun doc => (Return doc, doc).
Definition modify (f : node -> node) : M unit := fun doc => (Return tt, f doc).
Definition lift {A} (o : outcome A) : M A := fun doc => (o, doc).

Notation "x <- m ;; k" := (bind m (fun x => k))
  (at level 61, m at next level, right associativity).
Notation "m ;;; k" := (bind m (fun _ => k))
  (at level 61, right associativity).

(** ** Iterating over an element while the loop body moves children away

    [for element in split_root] runs lxml's child iterator: it holds the
    node it will hand out next; [__next__] hands that node out after storing
    the sibling that follows it at that moment.  The body may move the
    element it was given to another parent, which takes it out of the
    iterated child list.  Children are told apart by identity, here the
    position they had when the iterator was created. *)

Module Iter.
Section ForEach.

Variable A : Type.
(** The loop body: the new state, and whether the element was moved away. *)
Variable body : A -> node -> A * bool.

Record state : Type :=
  { kids : list (nat * node);   (* the iterated parent's children, now *)
    next : option nat;          (* the node the iterator holds *)
    acc : A }.

(** The child with identity [i] and the identity of its next sibling. *)
Fixpoint find_child (i : nat) (l : list (nat * node))
  : option (node * option nat) :=
  match l with
  | [] => None
  | (j, e) :: l' =>
      if j =? i then Some (e, option_map fst (hd_error l'))
      else find_child i l'
  end.

Definition drop_child (i : nat) (l : list (nat * node)) : list (nat * node) :=
  filter (fun c => negb (fst c =? i)) l.

(** Children with their identities, numbered from [j]. *)
Definition tagged (j : nat) (es : list node) : list (nat * node) :=
  combine (seq j (length es)) es.

Definition start (es : list node) (a : A) : state :=
  let l := tagged 0 es in
  {| kids := l; next := option_map fst (hd_error l); acc := a |}.

(** One turn of the loop; [None] is [StopIteration]. *)
Definition step (st : state) : option state :=
  match next st with
  | None => None
  | Some i =>
      match find_child i (kids st) with
      | None => None
      | Some (e, following) =>
          let (a, moved) := body (acc st) e in
          Some {| kids := if moved then drop_child i (kids st) else kids st;
                  next := following;
                  acc := a |}
      end
  end.

Fixpoint run (fuel : nat) (st : state) : state :=
  match fuel with
  | O => st
  | S fuel' =>
      match step st with
      | None => st
      | Some st' => run fuel' st'
      end
  end.

(** The loop over the children [es]; it takes at most one turn per child. *)
Definition for_each (es : list node) (a : A) : A :=
  acc (run (length es) (start es a)).

End ForEach.
End Iter.

(** ** What the function receives from lxml and from the HTTP endpoint *)

(** [etree.fromstring(..., parser=XMLParser(recover=True))]: the parser
    raises, or recovers nothing and returns [None], or returns a root. *)
Inductive recovered : Type :=
| RecoverError
| RecoverNone
| Recovered (root : node).

(** An item of an XPath result list: an element, comment or processing
    instruction of the tree under the root, given with its position; a
    comment or processing instruction beside the root, which has no parent;
    or a string or tuple (text, attribute and namespace results). *)
Inductive xitem : Type :=
| XElem (p : path) (n : node)
| XTop (n : node)
| XOther.

(** What [root.xpath(expr)] evaluates to: a list for a node-set, a string,
    or a float or bool. *)
Inductive xpath_value : Type :=
| XItems (l : list xitem)
| XString (s : str)
| XScalar.

(** [requests.post(url, json=data)] followed by [raise_for_status()] and
    [json()]: a failed request, or the decoded object with its ["response"]
    entry when it has one. *)
Inductive reply : Type :=
| RequestException
| Json (response : option str).

Definition invalid_xml : exn :=
  Exception (lit "CodeLlama returned invalid XML").
Definition no_response : exn :=
  Exception (lit "Failed to get a response from CodeLlama").

(** Lines 26-47: the f-string, with [tag] for [node.tag] and
    [original_content] for the node's text. *)
Definition task_framing : str :=
  lit "    Task: Split the following XML content into four categories: task, profile, offer, and contact.".

Definition rules : list str :=
  [ lit "    Rules:";
    lit "    1. Maintain the original wording.";
    lit "    2. Do not add any new information.";
    lit "    3. If a category is not applicable, omit that tag entirely.";
    lit "    4. Use proper XML syntax." ].

Definition output_format : list str :=
  [ lit "    Output format:";
    lit "    <introduction>Introduction content here</introduction>";
    lit "    <task>Task content here</task>";
    lit "    <profile>Profile content here</profile>";
    lit "    <offer>Offer content here</offer>";
    lit "    <contact>Contact content here</contact>" ].

Definition lines (ls : list str) : str := concat (map (fun l => l ++ nl) ls).

Definition build_prompt (tag original_content : str) : str :=
  nl ++ lines [task_framing] ++ lines rules
     ++ nl
     ++ lines [ lit "    Input XML:";
                lit "    <" ++ tag ++ lit ">";
                lit "    " ++ original_content;
                lit "    </" ++ tag ++ lit ">" ]
     ++ nl
     ++ lines output_format
     ++ nl
     ++ lines [ lit "    Split the content:" ]
     ++ lit "    ".

(** Line 56: [f"<root>{split_content}</root>"] *)
Definition wrapped (split_content : str) : str :=
  lit "<root>" ++ split_content ++ lit "</root>".

(** Line 65: [element.text and element.text.strip()] *)
Definition has_content (e : node) : bool :=
  match text e with
  | None => false
  | Some t => truthy t && truthy (strip t)
  end.

(** Lines 64-67, one turn: an element with content is moved into the
    parent at [index], and [index] advances. *)
Definition splice_one (pp : path) (st : node * nat) (element : node)
  : (node * nat) * bool :=
  let (doc, index) := st in
  if has_content element
  then ((set_children_at pp (insert_at index element) doc, S index), true)
  else ((doc, index), false).

Section Pipeline.

Variable fromstring_recover : str -> recovered.
(** [etree.fromstring(text)] with the default, strict parser; [None] is
    [XMLSyntaxError]. *)
Variable fromstring : str -> option node.
(** [root.xpath(expr)]; [None] is [XPathEvalError]. *)
Variable xpath : node -> str -> option xpath_value.
(** [etree.tostring(root, pretty_print=True, encoding='unicode')] *)
Variable tostring : node -> str.
(** The endpoint at [http://localhost:11434/api/generate], by prompt. *)
Variable post : str -> reply.

(** Lines 72-90.  The messages shown through [st.error] are left out. *)
Definition ask_codellama (prompt : str) : option str :=
  match post prompt with
  | RequestException => None
  | Json (Some response) => Some response
  | Json None => None
  end.

(** Line 22: [root.xpath(node_path)[0]].  Subscripting a string result
    gives its first character, a plain [str]; a float or a bool cannot be
    subscripted. *)
Definition locate (root : node) (node_path : str) : outcome xitem :=
  match xpath root node_path with
  | None => Raise XPathEvalError
  | Some (XItems []) => Raise IndexError
  | Some (XItems (x :: _)) => Return x
  | Some (XString []) => Raise IndexError
  | Some (XString (_ :: _)) => Return XOther
  | Some XScalar => Raise TypeError
  end.

(** [node.tag] and [node.text], read at lines 23 and 35. *)
Definition tag_and_text (x : xitem) : outcome (str * option str) :=
  match x with
  | XElem _ n | XTop n => Return (tag n, text n)
  | XOther => Raise AttributeError
  end.

(** Line 23: [node.text if node.text else ""] *)
Definition content_of (t : option str) : str :=
  match t with
  | Some s => if truthy s then s else []
  | None => []
  end.

(** Lines 55-58 *)
Definition parse_response (split_content : str) : outcome node :=
  match fromstring (wrapped split_content) with
  | Some split_root => Return split_root
  | None => Raise invalid_xml
  end.

(** Lines 61-62: the parent and the index; [None.index] raises. *)
Definition parent_and_index (x : xitem) : outcome (path * nat) :=
  match x with
  | XElem p _ =>
      match split_last p with
      | Some pi => Return pi
      | None => Raise AttributeError
      end
  | XTop _ | XOther => Raise AttributeError
  end.

(** Lines 23-67, for the node [root.xpath(node_path)[0]] gave. *)
Definition split_node (node : xitem) : M unit :=
  tt' <- lift (tag_and_text node) ;;
  let original_content := content_of (snd tt') in
  let prompt := build_prompt (fst tt') original_content in
  split_content <- lift (match ask_codellama prompt with
                         | Some s => Return s
                         | None => Raise no_response
                         end) ;;
  split_root <- lift (parse_response split_content) ;;
  pi <- lift (parent_and_index node) ;;
  let (parent, index) := (pi : path * nat) in
  modify (set_children_at parent (remove_nth index)) ;;;
  modify (fun doc =>
            fst (Iter.for_each (splice_one parent)
                               (children split_root) (doc, index))).

(** Lines 22-67, on the parsed tree. *)
Definition split_in_tree (node_path : str) : M unit :=
  root <- read ;;
  node <- lift (locate root node_path) ;;
  split_node node.

(** Lines 14-69 *)
Definition split_xml_node (xml_content node_path : str) : outcome str :=
  let xml_content := remove_declaration xml_content in
  match fromstring_recover xml_content with
  | RecoverError => Raise XMLSyntaxError
  | RecoverNone => Raise AttributeError
  | Recovered root =>
      match split_in_tree node_path root with
      | (Return _, root') => Return (tostring root')
      | (Raise e, _) => Raise e
      end
  end.

End Pipeline.

(** ** A small lxml, to run the pipeline on concrete inputs

    Stand-ins for the lxml entry points on a fragment of XML: documents made
    of elements with plain ASCII names (no attributes, comments, entities or
    processing instructions) and character data without [<], [>] and [&],
    and path expressions of the form [//name].  On this fragment they answer
    as lxml does; outside they reject.  *)

Module Mini.

Definition is_name_start (c : char) : bool :=
  ((65 <=? c) && (c <=? 90) || (97 <=? c) && (c <=? 122) || (c =? 95))%N.

Definition is_name_char (c : char) : bool :=
  (is_name_start c || (48 <=? c) && (c <=? 57) || (c =? 45) || (c =? 46))%N.

Definition is_text_char (c : char) : bool :=
  (((c =? 9) || (c =? 10) || (32 <=? c) && (c <=? 55295))
   && negb (c =? 60) && negb (c =? 62) && negb (c =? 38))%N.

Fixpoint span (f : char -> bool) (s : str) : str * str :=
  match s with
  | [] => ([], [])
  | c :: s' =>
      if f c then let (a, b) := span f s' in (c :: a, b) else ([], s)
  end.

Fixpoint strip_prefix (p s : str) : option str :=
  match p, s with
  | [], _ => Some s
  | _ :: _, [] => None
  | c :: p', x :: s' => if (x =? c)%N then strip_prefix p' s' else None
  end.

Definition some_text (s : str) : option str :=
  match s with [] => None | _ => Some s end.

Definition with_tail (n : node) (t : option str) : node :=
  Node (tag n) (attrib n) (text n) (children n) t.

(** [element] reads one element at the head of the text, [siblings] the
    children that precede a closing tag, each with the text after it. *)
Fixpoint element (fuel : nat) (s : str) : option (node * str) :=
  match fuel with
  | O => None
  | S fuel' =>
      match s with
      | 60%N :: s1 =>
          let (name, s2) := span is_name_char s1 in
          match name with
          | [] => None
          | c :: _ =>
              if is_name_start c then
                match s2 with
                | 47%N :: 62%N :: rest => Some (Node name [] None [] None, rest)
                | 62%N :: s3 =>
                    let (txt, s4) := span is_text_char s3 in
                    match siblings fuel' s4 with
                    | Some (cs, s5) =>
                        match strip_prefix (lit "</" ++ name ++ lit ">") s5 with
                        | Some rest =>
                            Some (Node name [] (some_text txt) cs None, rest)
                        | None => None
                        end
                    | None => None
                    end
                | _ => None
                end
              else None
          end
      | _ => None
      end
  end
with siblings (fuel : nat) (s : str) : option (list node * str) :=
  match fuel with
  | O => None
  | S fuel' =>
      match s with
      | 60%N :: 47%N :: _ => Some ([], s)
      | 60%N :: _ =>
          match element fuel' s with
          | Some (e, s1) =>
              let (tl, s2) := span is_text_char s1 in
              match siblings fuel' s2 with
              | Some (cs, s3) => Some (with_tail e (some_text tl) :: cs, s3)
              | None => None
              end
          | None => None
          end
      | _ => None
      end
  end.

(** The strict parser: one element and nothing else. *)
Definition fromstring (s : str) : option node :=
  match element (2 * List.length s + 2) s with
  | Some (e, []) => Some e
  | _ => None
  end.

(** The recovering parser, on well-formed text only. *)
Definition fromstring_recover (s : str) : recovered :=
  match fromstring s with
  | Some root => Recovered root
  | None => RecoverNone
  end.

(** The nodes of a tree with their paths, in document order. *)
Fixpoint walk (t : node) : list (path * node) :=
  ([], t) ::
  match t with
  | Node _ _ _ cs _ =>
      (fix each (i : nat) (cs : list node) : list (path * node) :=
         match cs with
         | [] => []
         | c :: cs' =>
             map (fun pn => (i :: fst pn, snd pn)) (walk c) ++ each (S i) cs'
         end) 0 cs
  end.

(** [//name]: the elements called [name], in document order. *)
Definition xpath (root : node) (expr : str) : option xpath_value :=
  match expr with
  | 47%N :: 47%N :: name =>
      match name with
      | c :: _ =>
          if is_name_start c && forallb is_name_char name then
            Some (XItems
                    (map (fun pn => XElem (fst pn) (snd pn))
                         (filter (fun pn => str_eqb (tag (snd pn)) name)
                                 (walk root))))
          else None
      | [] => None
      end
  | _ => None
  end.

Definition escape (s : str) : str :=
  flat_map (fun c => if (c =? 60)%N then lit "&lt;"
                     else if (c =? 62)%N then lit "&gt;"
                     else if (c =? 38)%N then lit "&amp;"
                     else if (c =? 13)%N then lit "&#13;"
                     else [c]) s.

Definition opt_text (t : option str) : str :=
  match t with Some s => escape s | None => [] end.

Definition has_text_child (n : node) : bool :=
  match text n with
  | Some (_ :: _) => true
  | _ => existsb (fun c => match tail c with Some (_ :: _) => true | _ => false end)
                 (children n)
  end.

Definition indent (depth : nat) : str := concat (repeat (lit "  ") depth).

(** One element without its tail; [format] says whether the element sits in
    indented content.  Children are indented when none of the element's
    children is text. *)
Fixpoint dump (format : bool) (depth : nat) (n : node) : str :=
  match n with
  | Node name _ txt cs _ =>
      match cs, txt with
      | [], (None | Some []) => lit "<" ++ name ++ lit "/>"
      | _, _ =>
          let fmt := format && negb (has_text_child n) in
          lit "<" ++ name ++ lit ">"
            ++ opt_text txt
            ++ (if fmt then nl else [])
            ++ (fix each (cs : list node) : str :=
                  match cs with
                  | [] => []
                  | c :: cs' =>
                      (if fmt then indent (S depth) else [])
                        ++ dump fmt (S depth) c
                        ++ opt_text (tail c)
                        ++ (if fmt then nl else [])
                        ++ each cs'
                  end) cs
            ++ (if fmt then indent depth else [])
            ++ lit "</" ++ name ++ lit ">"
      end
  end.

(** Serialisation with [pretty_print=True], for trees without attributes. *)
Definition tostring (root : node) : str :=
  dump true 0 root ++ opt_text (tail root) ++ nl.

End Mini.

(** ** The rest of the application *)

(** [str(n)] for a length. *)
Definition decimal (n : nat) : str :=
  lit (DecimalString.NilEmpty.string_of_uint (Nat.to_uint n)).

(** Line 138: [f"{node_path}_{len(collection.get()['ids'])}"], for a
    collection that holds [n] records. *)
Definition record_id (node_path : str) (n : nat) : str :=
  node_path ++ lit "_" ++ decimal n.

(** Lines 94-110: the second prompt. *)
Definition explain_prompt (original_xml new_xml : str) : str :=
  nl ++ lines [ lit "    Task: Explain the changes made to this XML.";
                lit "    ";
                lit "    Before:";
                lit "    " ++ original_xml;
                lit "    ";
                lit "    After:";
                lit "    " ++ new_xml;
                lit "    ";
                lit "    Instructions:";
                lit "    1. Focus on explaining which node was split.";
                lit "    2. Describe how the content was distributed among the new nodes (task, profile, offer, contact).";
                lit "    3. Be concise but thorough in your explanation.";
                lit "    4. If a category is missing in the result, mention that it wasn't applicable." ]
     ++ nl
     ++ lines [ lit "    Explanation:" ]
     ++ lit "    ".

Section Application.

Variable fromstring_recover : str -> recovered.
Variable fromstring : str -> option node.
Variable xpath : node -> str -> option xpath_value.
Variable tostring : node -> str.

(** The Chroma collection: the ids [collection.get()['ids']] lists, and the
    collection as [collection.add(documents=[document],
    metadatas=[{"original_xml": ..., "node_path": ...}], ids=[id])] leaves
    it, whether the call returns or raises. *)
Variable collection : Type.
Variable ids : collection -> list str.
Variable add : collection -> str -> str -> str * str -> collection.

(** Lines 93-112 *)
Definition explain_changes (post : str -> reply) (original_xml new_xml : str)
  : option str :=
  ask_codellama post (explain_prompt original_xml new_xml).

(** Lines 125-139, on the collection: what a press of "Split Node" leaves
    in it.  The widgets drawn around it are left out. *)
Definition split_clicked (post : str -> reply) (xml_content node_path : str)
  (c : collection) : collection :=
  if truthy xml_content && truthy node_path then
    let original_xml := xml_content in
    match split_xml_node fromstring_recover fromstring xpath tostring post
                         xml_content node_path with
    | Return new_xml =>
        add c (record_id node_path (List.length (ids c))) new_xml
            (original_xml, node_path)
    | Raise _ => c
    end
  else c.

(** The collections the application can be in, from an empty one. *)
Inductive reachable : collection -> Prop :=
| reach_empty c : ids c = [] -> reachable c
| reach_click post xml_content node_path c :
    reachable c -> reachable (split_clicked post xml_content node_path c).

End Application.

(** One path is an initial part of another. *)
Fixpoint is_prefix (p q : path) : bool :=
  match p, q with
  | [], _ => true
  | _ :: _, [] => false
  | i :: p', j :: q' => (i =? j) && is_prefix p' q'
  end.

(** ** Notions the properties are stated with *)

(** The text that follows a declaration at the very start of the input,
    or the whole input when it does not start with one. *)
Definition after_leading_declaration (s : str) : str :=
  match Re.xml_decl s with
  | Some n => skipn n s
  | None => s
  end.

(** The positions of the nodes of an XPath result list. *)
Fixpoint element_paths (l : list xitem) : list path :=
  match l with
  | [] => []
  | XElem p _ :: l' => p :: element_paths l'
  | _ :: l' => element_paths l'
  end.

Definition precedes (p q : path) : Prop := doc_before p q = true.

(** lxml lists the nodes a path expression selects in document order. *)
Definition in_document_order (l : list xitem) : Prop :=
  Sorted precedes (element_paths l).

(** An element whose direct text is not empty. *)
Definition has_text (e : node) : bool :=
  match text e with
  | Some (_ :: _) => true
  | _ => false
  end.

(** A direct text that is absent, empty or made of whitespace only. *)
Definition blank (t : option str) : Prop :=
  match t with
  | None => True
  | Some s => strip s = []
  end.

(** [p in s] for strings. *)
Fixpoint starts_with (p s : str) : bool :=
  match p, s with
  | [], _ => true
  | _ :: _, [] => false
  | c :: p', x :: s' => (x =? c)%N && starts_with p' s'
  end.

Fixpoint contains (p s : str) : bool :=
  starts_with p s || match s with [] => false | _ :: s' => contains p s' end.

(** The five categories of the specification. *)
Definition categories : list str :=
  [ lit "introduction"; lit "task"; lit "profile"; lit "offer"; lit "contact" ].

(** The tail of the prompt, from the output format on. *)
Definition prompt_ending : str :=
  lines output_format ++ nl ++ lines [ lit "    Split the content:" ]
    ++ lit "    ".

(** * Properties *)

Unset Implicit Arguments.

(** ** The child iterator visits every child once, in order *)

Module IterFacts.
Import Iter.
Section Visits.

Variable A : Type.
Variable body : A -> node -> A * bool.

Lemma tagged_cons j e es : tagged j (e :: es) = (j, e) :: tagged (S j) es.
Proof. reflexivity. Qed.

Lemma tagged_ids j es : Forall (fun c => j <= fst c) (tagged j es).
Proof.
  revert j; induction es as [|e es IH]; intros j; [constructor|].
  rewrite tagged_cons. constructor; [simpl; lia|].
  eapply Forall_impl; [|apply IH]. simpl; intros; lia.
Qed.

Lemma find_child_app j e pre rest :
  Forall (fun c => fst c < j) pre ->
  find_child j (pre ++ (j, e) :: rest)
  = Some (e, option_map fst (hd_error rest)).
Proof.
  induction 1 as [|[i x] pre Hi _ IH]; simpl.
  - now rewrite Nat.eqb_refl.
  - simpl in Hi. destruct (Nat.eqb_spec i j); [lia|exact IH].
Qed.

Lemma drop_child_absent j l :
  Forall (fun c => fst c <> j) l -> drop_child j l = l.
Proof.
  induction 1 as [|[i x] l Hi _ IH]; simpl; [reflexivity|].
  simpl in Hi. destruct (Nat.eqb_spec i j); [contradiction|].
  simpl. f_equal. exact IH.
Qed.

Lemma drop_child_app j e pre es :
  Forall (fun c => fst c < j) pre ->
  drop_child j (pre ++ (j, e) :: tagged (S j) es) = pre ++ tagged (S j) es.
Proof.
  intros Hpre. unfold drop_child. rewrite filter_app. simpl.
  rewrite Nat.eqb_refl. simpl. f_equal.
  - apply drop_child_absent.
    eapply Forall_impl; [|exact Hpre]. simpl; intros; lia.
  - apply drop_child_absent.
    eapply Forall_impl; [|apply tagged_ids]. simpl; intros; lia.
Qed.

(** From any point of the iteration, the loop runs the body on the
    children not yet visited, in order, and then stops. *)
Lemma run_visits es :
  forall j pre a fuel,
    List.length es <= fuel ->
    Forall (fun c => fst c < j) pre ->
    exists rest,
      run body fuel {| kids := pre ++ tagged j es;
                       next := option_map fst (hd_error (tagged j es));
                       acc := a |}
      = {| kids := rest; next := None;
           acc := fold_left (fun a e => fst (body a e)) es a |}.
Proof.
  induction es as [|e es IH]; intros j pre a fuel Hfuel Hpre.
  - exists (pre ++ []). destruct fuel; reflexivity.
  - destruct fuel as [|fuel]; [simpl in Hfuel; lia|].
    rewrite tagged_cons. cbn [run step next kids acc hd_error option_map fst].
    rewrite (find_child_app j e pre (tagged (S j) es) Hpre).
    destruct (body a e) as [a' moved] eqn:Hb.
    assert (Ha : fold_left (fun a e => fst (body a e)) (e :: es) a
                 = fold_left (fun a e => fst (body a e)) es a')
      by (simpl; now rewrite Hb).
    rewrite Ha. destruct moved.
    + rewrite (drop_child_app j e pre es Hpre).
      apply IH; [simpl in Hfuel; lia|].
      eapply Forall_impl; [|exact Hpre]. simpl; intros; lia.
    + replace (pre ++ (j, e) :: tagged (S j) es)
        with ((pre ++ [(j, e)]) ++ tagged (S j) es)
        by (rewrite <- app_assoc; reflexivity).
      apply IH; [simpl in Hfuel; lia|].
      apply Forall_app; split.
      * eapply Forall_impl; [|exact Hpre]. simpl; intros; lia.
      * constructor; [simpl; lia|constructor].
Qed.

Lemma for_each_run es a :
  exists rest,
    run body (List.length es) (start es a)
    = {| kids := rest; next := None;
         acc := fold_left (fun a e => fst (body a e)) es a |}.
Proof.
  exact (run_visits es 0 [] a (List.length es) (le_n _) (Forall_nil _)).
Qed.

Lemma for_each_fold es a :
  for_each body es a = fold_left (fun a e => fst (body a e)) es a.
Proof.
  unfold for_each. destruct (for_each_run es a) as [rest ->]. reflexivity.
Qed.

(** With one turn per child the loop has ended: the iterator is
    exhausted. *)
Lemma for_each_stops es a :
  step body (run body (List.length es) (start es a)) = None.
Proof.
  destruct (for_each_run es a) as [rest ->]. reflexivity.
Qed.

End Visits.
End IterFacts.

(** ** Updating a child list inside a tree *)

Module TreeFacts.

Lemma map_nth_twice {A} i (f g : A -> A) l :
  map_nth i f (map_nth i g l) = map_nth i (fun x => f (g x)) l.
Proof.
  revert i; induction l as [|x l IH]; intros [|i]; simpl; try reflexivity.
  now rewrite IH.
Qed.

Lemma map_nth_ext {A} i (f g : A -> A) l :
  (forall x, f x = g x) -> map_nth i f l = map_nth i g l.
Proof.
  intros E. revert i; induction l as [|x l IH]; intros [|i]; simpl;
    try reflexivity.
  - now rewrite E.
  - now rewrite IH.
Qed.

Lemma nth_error_map_nth {A} i (f : A -> A) l :
  nth_error (map_nth i f l) i = option_map f (nth_error l i).
Proof.
  revert i; induction l as [|x l IH]; intros [|i]; simpl; try reflexivity.
  apply IH.
Qed.

Lemma set_children_twice pp f g t :
  set_children_at pp f (set_children_at pp g t)
  = set_children_at pp (fun cs => f (g cs)) t.
Proof.
  revert t; induction pp as [|i pp IH]; intros t; simpl.
  - reflexivity.
  - unfold with_children; simpl. f_equal.
    rewrite map_nth_twice. apply map_nth_ext. exact IH.
Qed.

Lemma set_children_ext pp f g t :
  (forall cs, f cs = g cs) ->
  set_children_at pp f t = set_children_at pp g t.
Proof.
  intros E. revert t; induction pp as [|i pp IH]; intros t; simpl.
  - now rewrite E.
  - f_equal. apply map_nth_ext. exact IH.
Qed.

Lemma get_set_children pp f t n :
  get t pp = Some n ->
  get (set_children_at pp f t) pp = Some (with_children n (f (children n))).
Proof.
  revert t; induction pp as [|i pp IH]; intros t; simpl.
  - intros [= ->]. reflexivity.
  - rewrite nth_error_map_nth.
    destruct (nth_error (children t) i) as [c|]; simpl; [apply IH|discriminate].
Qed.

Lemma split_last_app pp i : split_last (pp ++ [i]) = Some (pp, i).
Proof.
  induction pp as [|j pp IH]; simpl; [reflexivity|now rewrite IH].
Qed.

Lemma ins_nil {A} i (l : list A) : ins i [] l = l.
Proof. unfold ins; simpl. apply firstn_skipn. Qed.

(** An insertion past the end appends, so this needs no bound on [i]. *)
Lemma ins_cons {A} i (e : A) xs l :
  ins (S i) xs (insert_at i e l) = ins i (e :: xs) l.
Proof.
  unfold ins, insert_at.
  revert l; induction i as [|i IH]; intros l.
  - reflexivity.
  - destruct l as [|x l].
    + simpl. destruct i; reflexivity.
    + specialize (IH l). simpl in *. now rewrite IH.
Qed.

Lemma ins_remove_nth {A} i xs (l : list A) :
  i < List.length l ->
  ins i xs (remove_nth i l) = firstn i l ++ xs ++ skipn (S i) l.
Proof.
  intros Hi. unfold ins, remove_nth.
  assert (L : List.length (firstn i l) = i) by (apply firstn_length_le; lia).
  rewrite firstn_app, skipn_app, L, Nat.sub_diag. simpl.
  rewrite firstn_all2 by lia. rewrite skipn_all2 by lia.
  now rewrite app_nil_r.
Qed.

(** Lines 64-67 as a whole: the elements with content go in at [index],
    in their order, and [index] ends after them. *)
Lemma splice_fold pp es :
  forall g index root,
    fold_left (fun st e => fst (splice_one pp st e)) es
              (set_children_at pp g root, index)
    = (set_children_at pp (fun cs => ins index (filter has_content es) (g cs))
                       root,
       index + List.length (filter has_content es)).
Proof.
  induction es as [|e es IH]; intros g index root; simpl.
  - rewrite Nat.add_0_r. f_equal.
    apply set_children_ext. intros cs. now rewrite ins_nil.
  - destruct (has_content e); simpl.
    + rewrite set_children_twice, IH. f_equal.
      * apply set_children_ext. intros cs. apply ins_cons.
      * lia.
    + apply IH.
Qed.

End TreeFacts.

(** ** Removing the declaration *)

Module ReFacts.

Lemma sub_from_skip m k s :
  Re.sub_from m k s = Re.sub_from m 0 (skipn k s).
Proof.
  revert k; induction s as [|x s IH]; intros [|k]; try reflexivity.
  simpl. apply IH.
Qed.

Lemma sub_absent m s : Re.occurs m s = false -> Re.sub m s = s.
Proof.
  unfold Re.sub. induction s as [|x s IH]; simpl; [reflexivity|].
  destruct (m (x :: s)); [discriminate|].
  intros H. now rewrite IH.
Qed.

Lemma sub_leading m s n :
  m s = Some n -> Re.sub m s = Re.sub m (skipn n s).
Proof.
  unfold Re.sub. destruct s as [|x s]; intros H.
  - now rewrite skipn_nil.
  - simpl. rewrite H. destruct n as [|n]; [simpl; now rewrite H|].
    simpl. apply sub_from_skip.
Qed.

End ReFacts.

(** ** The pipeline *)

Section PipelineFacts.

Variable fromstring_recover : str -> recovered.
Variable fromstring : str -> option node.
Variable xpath : node -> str -> option xpath_value.
Variable tostring : node -> str.
Variable post : str -> reply.

Local Abbreviation locate' := (locate xpath).
Local Abbreviation ask' := (ask_codellama post).
Local Abbreviation parse' := (parse_response fromstring).
Local Abbreviation split_node' := (split_node fromstring post).
Local Abbreviation split_in_tree' := (split_in_tree fromstring xpath post).
Local Abbreviation split_xml_node' :=
  (split_xml_node fromstring_recover fromstring xpath tostring post).

Lemma locate_first root e x rest :
  xpath root e = Some (XItems (x :: rest)) -> locate' root e = Return x.
Proof. unfold locate. now intros ->. Qed.

Lemma split_in_tree_located root e x :
  locate' root e = Return x -> split_in_tree' e root = split_node' x root.
Proof.
  intros H. unfold split_in_tree, bind, read, lift. now rewrite H.
Qed.

Lemma split_xml_node_parsed xml_content node_path root :
  fromstring_recover (remove_declaration xml_content) = Recovered root ->
  split_xml_node' xml_content node_path
  = match split_in_tree' node_path root with
    | (Return _, root') => Return (tostring root')
    | (Raise e, _) => Raise e
    end.
Proof. intros H. unfold split_xml_node. now rewrite H. Qed.

(** The whole of lines 23-67 for a node with a parent, once the endpoint
    has answered with text that parses. *)
Lemma split_node_spliced root pp i target s split_root :
  ask' (build_prompt (tag target) (content_of (text target)))
  = Some s ->
  parse' s = Return split_root ->
  split_node' (XElem (pp ++ [i]) target) root
  = (Return tt,
     set_children_at pp
       (fun cs => ins i (filter has_content (children split_root))
                      (remove_nth i cs))
       root).
Proof.
  intros Hask Hparse.
  unfold split_node, bind, lift, modify. simpl.
  rewrite Hask, Hparse, TreeFacts.split_last_app.
  rewrite IterFacts.for_each_fold, TreeFacts.splice_fold. reflexivity.
Qed.

(** A node without a parent is never split, and the tree is left as it
    was. *)
Lemma split_node_orphan root x :
  parent_and_index x = Raise AttributeError ->
  exists e, split_node' x root = (Raise e, root).
Proof.
  intros Hp. unfold split_node, bind, lift.
  destruct (tag_and_text x) as [[tg tx]|e]; [|eauto]. simpl.
  destruct (ask' _) as [s|]; [|eauto].
  destruct (parse' s) as [r|e]; [|eauto].
  rewrite Hp. eauto.
Qed.

(** No failure leaves a changed tree behind. *)
Lemma split_node_failure x root e root' :
  split_node' x root = (Raise e, root') -> root' = root.
Proof.
  unfold split_node, bind, lift, modify.
  destruct (tag_and_text x) as [[tg tx]|e1]; [|now intros [= _ <-]]. simpl.
  destruct (ask' _) as [s|]; [|now intros [= _ <-]].
  destruct (parse' s) as [r|e1]; [|now intros [= _ <-]].
  destruct (parent_and_index x) as [[pp i]|e1]; [|now intros [= _ <-]].
  discriminate.
Qed.

Lemma split_in_tree_failure node_path root e root' :
  split_in_tree' node_path root = (Raise e, root') -> root' = root.
Proof.
  unfold split_in_tree, bind, read, lift.
  destruct (locate' root node_path) as [x|e1]; [|now intros [= _ <-]].
  apply split_node_failure.
Qed.

(** The children of the parent after the splice. *)
Lemma spliced_parent root pp i parent new :
  get root pp = Some parent ->
  i < List.length (children parent) ->
  get (set_children_at pp (fun cs => ins i new (remove_nth i cs)) root) pp
  = Some (with_children parent
            (firstn i (children parent) ++ new
               ++ skipn (S i) (children parent))).
Proof.
  intros Hp Hi. rewrite (TreeFacts.get_set_children _ _ _ _ Hp).
  now rewrite TreeFacts.ins_remove_nth.
Qed.

Lemma has_content_has_text e : has_content e = true -> has_text e = true.
Proof.
  unfold has_content, has_text. destruct (text e) as [[|c t]|]; simpl;
    congruence.
Qed.

Lemma has_content_not_blank e :
  has_content e = true -> exists t, text e = Some t /\ strip t <> [].
Proof.
  unfold has_content. destruct (text e) as [t|]; [|discriminate].
  intros H. exists t. split; [reflexivity|].
  apply andb_prop in H as [_ H]. now destruct (strip t).
Qed.

Lemma blank_no_content e : blank (text e) -> has_content e = false.
Proof.
  unfold blank, has_content. destruct (text e) as [t|]; [|reflexivity].
  intros ->. apply andb_false_r.
Qed.

Lemma filter_content_le es :
  List.length (filter has_content es) <= List.length (filter has_text es).
Proof.
  induction es as [|e es IH]; simpl; [lia|].
  destruct (has_content e) eqn:E.
  - rewrite (has_content_has_text _ E). simpl. lia.
  - destruct (has_text e); simpl; lia.
Qed.

Lemma splice_positions {A} i (cs new : list A) :
  i < List.length cs ->
  let cs' := firstn i cs ++ new ++ skipn (S i) cs in
  (forall j, j < List.length new -> nth_error cs' (i + j) = nth_error new j)
  /\ (forall j, j < i -> nth_error cs' j = nth_error cs j)
  /\ (forall j, i < j ->
                nth_error cs' (j + List.length new - 1) = nth_error cs j).
Proof.
  intros Hi cs'. subst cs'.
  assert (L : List.length (firstn i cs) = i)
    by (apply firstn_length_le; lia).
  repeat split; intros j Hj.
  - rewrite nth_error_app2 by lia. rewrite L.
    replace (i + j - i) with j by lia.
    now rewrite nth_error_app1 by lia.
  - rewrite nth_error_app1 by lia. rewrite nth_error_firstn.
    destruct (Nat.ltb_spec j i); [reflexivity|lia].
  - rewrite nth_error_app2 by lia. rewrite L.
    rewrite nth_error_app2 by lia. rewrite nth_error_skipn.
    f_equal. lia.
Qed.

(** C1.  When the first match of the path expression is the child at
    index [i] of its parent and the model's response parses, the split
    succeeds; the [k] replacement elements with content then stand at
    positions [i .. i+k-1] of the parent's children in the order of the
    response, the siblings before [i] are where they were, and each
    sibling after the target is [k-1] places further on. *)
Theorem replacements_occupy_target_position
  xml_content node_path root pp i parent target rest s split_root :
  fromstring_recover (remove_declaration xml_content) = Recovered root ->
  xpath root node_path = Some (XItems (XElem (pp ++ [i]) target :: rest)) ->
  get root pp = Some parent ->
  nth_error (children parent) i = Some target ->
  ask' (build_prompt (tag target) (content_of (text target))) = Some s ->
  parse' s = Return split_root ->
  let new := filter has_content (children split_root) in
  let k := List.length new in
  exists root' parent',
    split_xml_node' xml_content node_path = Return (tostring root')
    /\ split_in_tree' node_path root = (Return tt, root')
    /\ get root' pp = Some parent'
    /\ (forall j, j < k ->
                  nth_error (children parent') (i + j) = nth_error new j)
    /\ (forall j, j < i ->
                  nth_error (children parent') j
                  = nth_error (children parent) j)
    /\ (forall j, i < j ->
                  nth_error (children parent') (j + k - 1)
                  = nth_error (children parent) j).
Proof.
  intros Hdoc Hx Hparent Htarget Hask Hparse new k.
  assert (Hi : i < List.length (children parent))
    by (apply nth_error_Some; congruence).
  assert (Hrun := split_node_spliced root pp i target s split_root Hask Hparse).
  rewrite <- (split_in_tree_located _ _ _ (locate_first _ _ _ _ Hx)) in Hrun.
  eexists. eexists. split; [|split; [exact Hrun|split]].
  - rewrite (split_xml_node_parsed _ node_path _ Hdoc), Hrun. reflexivity.
  - apply spliced_parent; eassumption.
  - cbn [children with_children]. apply splice_positions. exact Hi.
Qed.

(** C2.  In a successful split the parent's children are the old ones
    with the target replaced by the response elements that have content,
    and by nothing else: an element whose direct text is absent, empty or
    whitespace is not among them, every one of them has text that is not
    only whitespace, and they are no more than the response elements with
    non-empty text. *)
Theorem blank_replacements_are_skipped
  xml_content node_path root pp i parent target rest s split_root :
  fromstring_recover (remove_declaration xml_content) = Recovered root ->
  xpath root node_path = Some (XItems (XElem (pp ++ [i]) target :: rest)) ->
  get root pp = Some parent ->
  nth_error (children parent) i = Some target ->
  ask' (build_prompt (tag target) (content_of (text target))) = Some s ->
  parse' s = Return split_root ->
  exists root' parent' new,
    split_in_tree' node_path root = (Return tt, root')
    /\ get root' pp = Some parent'
    /\ children parent'
       = firstn i (children parent) ++ new ++ skipn (S i) (children parent)
    /\ (forall e, In e (children split_root) -> blank (text e) ->
                  ~ In e new)
    /\ (forall e, In e new ->
                  In e (children split_root)
                  /\ exists t, text e = Some t /\ strip t <> [])
    /\ List.length new
       <= List.length (filter has_text (children split_root))
    /\ List.length (children parent') + 1
       = List.length (children parent) + List.length new.
Proof.
  intros Hdoc Hx Hparent Htarget Hask Hparse.
  assert (Hi : i < List.length (children parent))
    by (apply nth_error_Some; congruence).
  assert (Hrun := split_node_spliced root pp i target s split_root Hask Hparse).
  rewrite <- (split_in_tree_located _ _ _ (locate_first _ _ _ _ Hx)) in Hrun.
  eexists. eexists. exists (filter has_content (children split_root)).
  split; [exact Hrun|split; [apply spliced_parent; eassumption|]].
  cbn [children with_children].
  split; [reflexivity|]. split; [|split; [|split]].
  - intros e _ Hb Hin. apply filter_In in Hin as [_ Hc].
    rewrite (blank_no_content _ Hb) in Hc. discriminate.
  - intros e Hin. apply filter_In in Hin as [Hin Hc].
    split; [exact Hin|now apply has_content_not_blank].
  - apply filter_content_le.
  - rewrite !length_app, length_skipn.
    rewrite firstn_length_le by lia. lia.
Qed.

(** C3.  A response that does not parse makes the split fail with the
    invalid-XML exception and the tree is as the parser built it: whatever
    the failure, the tree is unchanged when the function is left, and a
    result is returned only by a split that ran to its end. *)
Theorem unparseable_response_leaves_document xml_content node_path root :
  fromstring_recover (remove_declaration xml_content) = Recovered root ->
  (forall x tg tx s,
      locate' root node_path = Return x ->
      tag_and_text x = Return (tg, tx) ->
      ask' (build_prompt tg (content_of tx)) = Some s ->
      fromstring (wrapped s) = None ->
      split_in_tree' node_path root = (Raise invalid_xml, root)
      /\ split_xml_node' xml_content node_path = Raise invalid_xml)
  /\ (forall e root',
         split_in_tree' node_path root = (Raise e, root') ->
         root' = root /\ split_xml_node' xml_content node_path = Raise e)
  /\ (forall out,
         split_xml_node' xml_content node_path = Return out ->
         exists root',
           split_in_tree' node_path root = (Return tt, root')
           /\ out = tostring root').
Proof.
  intros Hdoc. rewrite (split_xml_node_parsed _ node_path _ Hdoc).
  split; [|split].
  - intros x tg tx s Hx Htt Hask Hbad.
    rewrite (split_in_tree_located _ _ _ Hx).
    unfold split_node, bind, lift, parse_response.
    rewrite Htt. simpl. rewrite Hask, Hbad. split; reflexivity.
  - intros e root' Hrun. rewrite Hrun.
    split; [exact (split_in_tree_failure _ _ _ _ Hrun)|reflexivity].
  - intros out. destruct (split_in_tree' node_path root) as [[[]|e] root'].
    + intros [= <-]. eauto.
    + discriminate.
Qed.

(** C4, as the code has it.  When the path expression resolves to the
    root, the split never returns and the tree is unchanged; the
    exception is the [AttributeError] of the missing parent once the
    endpoint has answered with text that parses, and the endpoint's or the
    parser's own failure otherwise. *)
Theorem root_is_never_split xml_content node_path root n rest :
  fromstring_recover (remove_declaration xml_content) = Recovered root ->
  xpath root node_path = Some (XItems (XElem [] n :: rest)) ->
  (exists e, split_in_tree' node_path root = (Raise e, root)
             /\ split_xml_node' xml_content node_path = Raise e)
  /\ (forall s split_root,
         ask' (build_prompt (tag n) (content_of (text n))) = Some s ->
         parse' s = Return split_root ->
         split_xml_node' xml_content node_path = Raise AttributeError)
  /\ (ask' (build_prompt (tag n) (content_of (text n))) = None ->
      split_xml_node' xml_content node_path = Raise no_response)
  /\ (forall s,
         ask' (build_prompt (tag n) (content_of (text n))) = Some s ->
         fromstring (wrapped s) = None ->
         split_xml_node' xml_content node_path = Raise invalid_xml).
Proof.
  intros Hdoc Hx. rewrite (split_xml_node_parsed _ node_path _ Hdoc).
  rewrite (split_in_tree_located _ _ _ (locate_first _ _ _ _ Hx)).
  split; [|split; [|split]].
  - destruct (split_node_orphan root (XElem [] n) eq_refl) as [e He].
    exists e. now rewrite He.
  - intros s split_root Hask Hparse.
    unfold split_node, bind, lift. simpl. now rewrite Hask, Hparse.
  - intros Hask. unfold split_node, bind, lift. simpl. now rewrite Hask.
  - intros s Hask Hbad.
    unfold split_node, bind, lift, parse_response. simpl.
    now rewrite Hask, Hbad.
Qed.

(** C5.  An expression lxml rejects makes the locator, and with it the
    split, fail with [XPathEvalError]; an expression that selects no node
    makes them fail with [IndexError]; and a split that returns a document
    had a first node to work on. *)
Theorem locator_failures xml_content node_path root :
  fromstring_recover (remove_declaration xml_content) = Recovered root ->
  (xpath root node_path = None ->
   locate' root node_path = Raise XPathEvalError
   /\ split_xml_node' xml_content node_path = Raise XPathEvalError)
  /\ (xpath root node_path = Some (XItems []) ->
      locate' root node_path = Raise IndexError
      /\ split_xml_node' xml_content node_path = Raise IndexError)
  /\ (forall out,
         split_xml_node' xml_content node_path = Return out ->
         exists p n rest,
           xpath root node_path = Some (XItems (XElem p n :: rest))).
Proof.
  intros Hdoc. rewrite (split_xml_node_parsed _ node_path _ Hdoc).
  unfold split_in_tree, bind, read, lift, locate.
  split; [|split].
  - now intros ->.
  - now intros ->.
  - intros out.
    destruct (xpath root node_path) as [[[|x l]|[|c s]| ]| ];
      try discriminate.
    destruct x as [p n|n| ].
    + intros _. now exists p, n, l.
    + destruct (split_node_orphan root (XTop n) eq_refl) as [e ->].
      discriminate.
    + destruct (split_node_orphan root XOther eq_refl) as [e ->].
      discriminate.
Qed.

Lemma precedes_trans : Transitive precedes.
Proof.
  unfold precedes. intros p. induction p as [|i p IH]; intros [|j q] [|k r];
    simpl; try congruence.
  intros H1 H2.
  apply orb_true_iff in H1 as [H1|H1]; apply orb_true_iff in H2 as [H2|H2];
    apply orb_true_iff.
  - left. apply Nat.ltb_lt in H1, H2. apply Nat.ltb_lt. lia.
  - apply andb_true_iff in H2 as [H2 _]. apply Nat.eqb_eq in H2. subst.
    now left.
  - apply andb_true_iff in H1 as [H1 _]. apply Nat.eqb_eq in H1. subst.
    now left.
  - apply andb_true_iff in H1 as [E1 H1]. apply andb_true_iff in H2 as [E2 H2].
    right. apply Nat.eqb_eq in E1, E2. subst. rewrite Nat.eqb_refl.
    simpl. exact (IH _ _ H1 H2).
Qed.

(** C6.  When the expression selects one or more elements, the node the
    pipeline works on is the first of lxml's list, which comes before
    every other selected element in document order. *)
Theorem first_match_wins root node_path p n ms :
  xpath root node_path = Some (XItems (XElem p n :: ms)) ->
  in_document_order (XElem p n :: ms) ->
  locate' root node_path = Return (XElem p n)
  /\ split_in_tree' node_path root = split_node' (XElem p n) root
  /\ (forall q, In q (element_paths ms) -> precedes p q).
Proof.
  intros Hx Hsorted.
  assert (Hl := locate_first _ _ _ _ Hx).
  split; [exact Hl|split; [exact (split_in_tree_located _ _ _ Hl)|]].
  intros q Hq.
  apply (Sorted_extends precedes_trans) in Hsorted.
  rewrite Forall_forall in Hsorted. now apply Hsorted.
Qed.

(** C7.  The response is parsed, wrapped in [<root>] and [</root>], by the
    strict parser: when that text is not well-formed the parser's failure
    becomes the invalid-XML exception; otherwise the loop that follows is
    given the children of the parsed root, each once and in their order,
    whatever its body moves away, and then ends. *)
Theorem response_parser_is_strict_and_ordered split_content :
  (fromstring (wrapped split_content) = None ->
   parse' split_content = Raise invalid_xml)
  /\ (forall split_root,
         fromstring (wrapped split_content) = Some split_root ->
         parse' split_content = Return split_root
         /\ forall (A : Type) (body : A -> node -> A * bool) (a : A),
             Iter.for_each body (children split_root) a
             = fold_left (fun a e => fst (body a e)) (children split_root) a
             /\ Iter.step body
                  (Iter.run body (List.length (children split_root))
                            (Iter.start (children split_root) a))
                = None).
Proof.
  unfold parse_response. split.
  - now intros ->.
  - intros split_root ->. split; [reflexivity|].
    intros A body a. split.
    + apply IterFacts.for_each_fold.
    + apply IterFacts.for_each_stops.
Qed.

(** C10.  The filter reads the direct text alone: an element whose direct
    text is absent, empty or whitespace is left out of the splice whatever
    its children and its tail are. *)
Theorem filter_reads_direct_text_only tg attrs tx cs tl :
  blank tx ->
  has_content (Node tg attrs tx cs tl) = false
  /\ (forall pp doc index,
         splice_one pp (doc, index) (Node tg attrs tx cs tl)
         = ((doc, index), false))
  /\ (forall es, ~ In (Node tg attrs tx cs tl) (filter has_content es)).
Proof.
  intros Hb.
  assert (H : has_content (Node tg attrs tx cs tl) = false)
    by (apply blank_no_content; exact Hb).
  split; [exact H|split].
  - intros pp doc index. unfold splice_one. now rewrite H.
  - intros es Hin. apply filter_In in Hin as [_ Hc]. congruence.
Qed.

End PipelineFacts.

(** C8, as the code has it.  A declaration at the start of the text is
    removed whole, and what follows is returned with the whitespace at its
    two ends trimmed; this is so whenever the pattern occurs nowhere in what
    follows. *)
Theorem leading_declaration_removed_and_trimmed s :
  Re.occurs Re.xml_decl (after_leading_declaration s) = false ->
  remove_declaration s = strip (after_leading_declaration s).
Proof.
  unfold remove_declaration, after_leading_declaration.
  destruct (Re.xml_decl s) as [n|] eqn:E; intros H.
  - rewrite (ReFacts.sub_leading _ _ _ E). now rewrite ReFacts.sub_absent.
  - now rewrite ReFacts.sub_absent.
Qed.

(** C9.  Whatever the tag and the text, the prompt opens with the task
    line, which announces four categories and names every category but
    [introduction], and closes with the output format, which shows a tag
    for each of the five. *)
Theorem prompt_names_four_categories_and_shows_five tag original_content :
  (exists rest,
      build_prompt tag original_content = nl ++ task_framing ++ nl ++ rest)
  /\ (exists front,
         build_prompt tag original_content = front ++ prompt_ending)
  /\ contains (lit "four categories: task, profile, offer, and contact.")
              task_framing = true
  /\ (forall c, In c categories ->
                contains c task_framing
                = negb (str_eqb c (lit "introduction")))
  /\ (forall c, In c categories ->
                contains (lit "<" ++ c ++ lit ">") prompt_ending = true).
Proof.
  split; [|split; [|split; [|split]]].
  - unfold build_prompt. cbn [lines map concat].
    rewrite app_nil_r, <- !app_assoc. eexists. reflexivity.
  - unfold build_prompt, prompt_ending.
    exists (nl ++ lines [task_framing] ++ lines rules ++ nl
               ++ lines [ lit "    Input XML:";
                          lit "    <" ++ tag ++ lit ">";
                          lit "    " ++ original_content;
                          lit "    </" ++ tag ++ lit ">" ]
               ++ nl).
    rewrite <- !app_assoc. reflexivity.
  - vm_compute. reflexivity.
  - intros c [<-|[<-|[<-|[<-|[<-|[]]]]]]; vm_compute; reflexivity.
  - intros c [<-|[<-|[<-|[<-|[<-|[]]]]]]; vm_compute; reflexivity.
Qed.

(** ** The pipeline on concrete inputs *)

Module Example.

Local Open Scope string_scope.

Definition elem (name : string) (txt : option string) (cs : list node)
  (tl : option string) : node :=
  Node (lit name) [] (option_map lit txt) cs (option_map lit tl).

Definition description : node :=
  elem "description"
       (Some "We need a skilled engineer. Competitive salary. Contact hr@x.com.")
       [] None.

Definition job : node :=
  elem "job" None
       [ elem "title" (Some "Engineer") [] None;
         description;
         elem "id" (Some "7") [] None ]
       None.

Definition xml : str :=
  lit "<?xml version='1.0'?><job><title>Engineer</title><description>We need a skilled engineer. Competitive salary. Contact hr@x.com.</description><id>7</id></job>".

(** A response with three categories and a [profile] left blank. *)
Definition response : str :=
  lit "<task>We need a skilled engineer.</task><profile> </profile><offer>Competitive salary.</offer><contact>Contact hr@x.com.</contact>".

Definition kept : list node :=
  [ elem "task" (Some "We need a skilled engineer.") [] None;
    elem "offer" (Some "Competitive salary.") [] None;
    elem "contact" (Some "Contact hr@x.com.") [] None ].

Definition split_root : node :=
  elem "root" None
       [ elem "task" (Some "We need a skilled engineer.") [] None;
         elem "profile" (Some " ") [] None;
         elem "offer" (Some "Competitive salary.") [] None;
         elem "contact" (Some "Contact hr@x.com.") [] None ]
       None.

(** An endpoint that answers [response], one that answers an unclosed tag,
    and one that is down. *)
Definition answers : str -> reply := fun _ => Json (Some response).
Definition broken : str -> reply :=
  fun _ => Json (Some (lit "<task>We need a skilled engineer.")).
Definition down : str -> reply := fun _ => RequestException.

Definition run (post : str -> reply) : str -> str -> outcome str :=
  split_xml_node Mini.fromstring_recover Mini.fromstring Mini.xpath
                 Mini.tostring post.

Definition run_in_tree (post : str -> reply) : str -> M unit :=
  split_in_tree Mini.fromstring Mini.xpath post.

(** The document of the specification's scenario: the node to split is the
    root. *)
Definition lone_xml : str :=
  lit "<description>We need a skilled engineer. Competitive salary. Contact hr@x.com.</description>".

(** Two elements the expression [//description] selects. *)
Definition twice_xml : str :=
  lit "<job><description>first</description><description>second</description></job>".
Definition first : node := elem "description" (Some "first") [] None.
Definition second : node := elem "description" (Some "second") [] None.
Definition twice : node := elem "job" None [first; second] None.

End Example.

Ltac run := vm_compute; reflexivity.

Lemma replacements_occupy_target_position_witness :
  exists root' parent',
    Example.run Example.answers Example.xml (lit "//description")
    = Return (Mini.tostring root')
    /\ Example.run_in_tree Example.answers (lit "//description") Example.job
       = (Return tt, root')
    /\ get root' [] = Some parent'
    /\ (forall j, j < 3 ->
                  nth_error (children parent') (1 + j)
                  = nth_error Example.kept j)
    /\ (forall j, j < 1 ->
                  nth_error (children parent') j
                  = nth_error (children Example.job) j)
    /\ (forall j, 1 < j ->
                  nth_error (children parent') (j + 3 - 1)
                  = nth_error (children Example.job) j).
Proof.
  refine (replacements_occupy_target_position
            Mini.fromstring_recover Mini.fromstring Mini.xpath Mini.tostring
            Example.answers Example.xml (lit "//description")
            Example.job [] 1 Example.job Example.description []
            Example.response Example.split_root _ _ _ _ _ _); run.
Defined.

Lemma blank_replacements_are_skipped_witness :
  exists root' parent' new,
    Example.run_in_tree Example.answers (lit "//description") Example.job
    = (Return tt, root')
    /\ get root' [] = Some parent'
    /\ children parent'
       = firstn 1 (children Example.job) ++ new
           ++ skipn 2 (children Example.job)
    /\ (forall e, In e (children Example.split_root) -> blank (text e) ->
                  ~ In e new)
    /\ (forall e, In e new ->
                  In e (children Example.split_root)
                  /\ exists t, text e = Some t /\ strip t <> [])
    /\ List.length new
       <= List.length (filter has_text (children Example.split_root))
    /\ List.length (children parent') + 1
       = List.length (children Example.job) + List.length new.
Proof.
  refine (blank_replacements_are_skipped
            Mini.fromstring_recover Mini.fromstring Mini.xpath
            Example.answers Example.xml (lit "//description")
            Example.job [] 1 Example.job Example.description []
            Example.response Example.split_root _ _ _ _ _ _); run.
Defined.

Lemma unparseable_response_leaves_document_witness :
  (Example.run_in_tree Example.broken (lit "//description") Example.job
   = (Raise invalid_xml, Example.job)
   /\ Example.run Example.broken Example.xml (lit "//description")
      = Raise invalid_xml)
  /\ (Example.job = Example.job
      /\ Example.run Example.down Example.xml (lit "//description")
         = Raise no_response)
  /\ (exists root',
         Example.run_in_tree Example.answers (lit "//description") Example.job
         = (Return tt, root')
         /\ Mini.tostring
              (Example.elem "job" None
                 (Example.elem "title" (Some "Engineer"%string) [] None
                    :: Example.kept
                    ++ [Example.elem "id" (Some "7"%string) [] None])
                 None)
            = Mini.tostring root').
Proof.
  split; [|split].
  - refine (proj1 (unparseable_response_leaves_document
                     Mini.fromstring_recover Mini.fromstring Mini.xpath
                     Mini.tostring Example.broken Example.xml
                     (lit "//description") Example.job _)
                  (XElem [1] Example.description)
                  (tag Example.description) (text Example.description)
                  (lit "<task>We need a skilled engineer.") _ _ _ _); run.
  - refine (proj1 (proj2 (unparseable_response_leaves_document
                            Mini.fromstring_recover Mini.fromstring Mini.xpath
                            Mini.tostring Example.down Example.xml
                            (lit "//description") Example.job _))
                  no_response Example.job _); run.
  - refine (proj2 (proj2 (unparseable_response_leaves_document
                            Mini.fromstring_recover Mini.fromstring Mini.xpath
                            Mini.tostring Example.answers Example.xml
                            (lit "//description") Example.job _))
                  _ _); run.
Defined.

(** C4 as stated fails: with the root selected and a response that does not
    parse, the exception is the parser's, not the one of the missing
    parent. *)
Lemma root_split_reports_the_parser_failure :
  Mini.fromstring_recover (remove_declaration Example.lone_xml)
  = Recovered Example.description
  /\ Mini.xpath Example.description (lit "//description")
     = Some (XItems [XElem [] Example.description])
  /\ Example.run Example.broken Example.lone_xml (lit "//description")
     = Raise invalid_xml
  /\ Example.run Example.broken Example.lone_xml (lit "//description")
     <> Raise AttributeError.
Proof.
  repeat split; try run.
  vm_compute. discriminate.
Qed.

Lemma root_is_never_split_witness :
  (exists e,
      Example.run_in_tree Example.answers (lit "//description")
                          Example.description
      = (Raise e, Example.description)
      /\ Example.run Example.answers Example.lone_xml (lit "//description")
         = Raise e)
  /\ Example.run Example.answers Example.lone_xml (lit "//description")
     = Raise AttributeError
  /\ Example.run Example.down Example.lone_xml (lit "//description")
     = Raise no_response
  /\ Example.run Example.broken Example.lone_xml (lit "//description")
     = Raise invalid_xml.
Proof.
  split; [|split; [|split]].
  - refine (proj1 (root_is_never_split
                     Mini.fromstring_recover Mini.fromstring Mini.xpath
                     Mini.tostring Example.answers Example.lone_xml
                     (lit "//description") Example.description
                     Example.description [] _ _)); run.
  - refine (proj1 (proj2 (root_is_never_split
                            Mini.fromstring_recover Mini.fromstring Mini.xpath
                            Mini.tostring Example.answers Example.lone_xml
                            (lit "//description") Example.description
                            Example.description [] _ _))
                  Example.response Example.split_root _ _); run.
  - refine (proj1 (proj2 (proj2 (root_is_never_split
                            Mini.fromstring_recover Mini.fromstring Mini.xpath
                            Mini.tostring Example.down Example.lone_xml
                            (lit "//description") Example.description
                            Example.description [] _ _))) _); run.
  - refine (proj2 (proj2 (proj2 (root_is_never_split
                            Mini.fromstring_recover Mini.fromstring Mini.xpath
                            Mini.tostring Example.broken Example.lone_xml
                            (lit "//description") Example.description
                            Example.description [] _ _)))
                  (lit "<task>We need a skilled engineer.") _ _); run.
Defined.

Lemma locator_failures_witness :
  (locate Mini.xpath Example.job (lit "//[") = Raise XPathEvalError
   /\ Example.run Example.answers Example.xml (lit "//[")
      = Raise XPathEvalError)
  /\ (locate Mini.xpath Example.job (lit "//salary") = Raise IndexError
      /\ Example.run Example.answers Example.xml (lit "//salary")
         = Raise IndexError)
  /\ (exists p n rest,
         Mini.xpath Example.job (lit "//description")
         = Some (XItems (XElem p n :: rest))).
Proof.
  split; [|split].
  - refine (proj1 (locator_failures
                     Mini.fromstring_recover Mini.fromstring Mini.xpath
                     Mini.tostring Example.answers Example.xml (lit "//[")
                     Example.job _) _); run.
  - refine (proj1 (proj2 (locator_failures
                     Mini.fromstring_recover Mini.fromstring Mini.xpath
                     Mini.tostring Example.answers Example.xml
                     (lit "//salary") Example.job _)) _); run.
  - refine (proj2 (proj2 (locator_failures
                     Mini.fromstring_recover Mini.fromstring Mini.xpath
                     Mini.tostring Example.answers Example.xml
                     (lit "//description") Example.job _))
                  (Mini.tostring
                     (Example.elem "job" None
                        (Example.elem "title" (Some "Engineer"%string) [] None
                           :: Example.kept
                           ++ [Example.elem "id" (Some "7"%string) [] None])
                        None)) _); run.
Defined.

Lemma first_match_wins_witness :
  locate Mini.xpath Example.twice (lit "//description")
  = Return (XElem [0] Example.first)
  /\ split_in_tree Mini.fromstring Mini.xpath Example.answers
                   (lit "//description") Example.twice
     = split_node Mini.fromstring Example.answers
                  (XElem [0] Example.first) Example.twice
  /\ (forall q, In q (element_paths [XElem [1] Example.second]) ->
                precedes [0] q).
Proof.
  refine (first_match_wins Mini.fromstring Mini.xpath Example.answers
            Example.twice (lit "//description") [0] Example.first
            [XElem [1] Example.second] _ _).
  - run.
  - repeat constructor.
Defined.

Lemma response_parser_is_strict_and_ordered_witness :
  parse_response Mini.fromstring (lit "<task>We need a skilled engineer.")
  = Raise invalid_xml
  /\ parse_response Mini.fromstring Example.response
     = Return Example.split_root
  /\ forall (A : Type) (body : A -> node -> A * bool) (a : A),
      Iter.for_each body (children Example.split_root) a
      = fold_left (fun a e => fst (body a e)) (children Example.split_root) a
      /\ Iter.step body
           (Iter.run body (List.length (children Example.split_root))
                     (Iter.start (children Example.split_root) a))
         = None.
Proof.
  split.
  - refine (proj1 (response_parser_is_strict_and_ordered
                     Mini.fromstring
                     (lit "<task>We need a skilled engineer.")) _); run.
  - refine (proj2 (response_parser_is_strict_and_ordered
                     Mini.fromstring Example.response)
                  Example.split_root _); run.
Defined.

Lemma filter_reads_direct_text_only_witness :
  has_content
    (Node (lit "task") [] (Some (lit "  "))
          [Example.elem "b" (Some "We need a skilled engineer."%string) [] None]
          (Some (lit "and more")))
  = false
  /\ (forall pp doc index,
         splice_one pp (doc, index)
           (Node (lit "task") [] (Some (lit "  "))
                 [Example.elem "b" (Some "We need a skilled engineer."%string)
                               [] None]
                 (Some (lit "and more")))
         = ((doc, index), false))
  /\ (forall es,
         ~ In (Node (lit "task") [] (Some (lit "  "))
                    [Example.elem "b"
                                  (Some "We need a skilled engineer."%string)
                                  [] None]
                    (Some (lit "and more")))
              (filter has_content es)).
Proof.
  refine (filter_reads_direct_text_only
            (lit "task") [] (Some (lit "  "))
            [Example.elem "b" (Some "We need a skilled engineer."%string)
                          [] None]
            (Some (lit "and more")) _).
  run.
Defined.

(** C8 as stated fails: the text after the declaration does not come out
    as it was, its leading and trailing whitespace is gone. *)
Lemma remainder_is_trimmed :
  after_leading_declaration (lit "<?xml version='1.0'?> <a>x</a> ")
  = lit " <a>x</a> "
  /\ remove_declaration (lit "<?xml version='1.0'?> <a>x</a> ")
     = lit "<a>x</a>"
  /\ remove_declaration (lit "<?xml version='1.0'?> <a>x</a> ")
     <> after_leading_declaration (lit "<?xml version='1.0'?> <a>x</a> ").
Proof.
  repeat split; try run.
  vm_compute. discriminate.
Qed.

Lemma leading_declaration_removed_and_trimmed_witness :
  remove_declaration (lit "<?xml version='1.0'?> <a>x</a> ")
  = strip (after_leading_declaration (lit "<?xml version='1.0'?> <a>x</a> ")).
Proof.
  refine (leading_declaration_removed_and_trimmed
            (lit "<?xml version='1.0'?> <a>x</a> ") _).
  run.
Defined.

(** The pattern is not tied to the start of the text: a processing
    instruction inside the document goes as well. *)
Example inner_instruction_removed :
  remove_declaration
    (lit "<a><?xml-stylesheet href='s.css'?><b>t</b></a>")
  = lit "<a><b>t</b></a>".
Proof. run. Qed.

(** The scenario of the specification on a document where the node has a
    parent. *)
Example split_description :
  Example.run Example.answers Example.xml (lit "//description")
  = Return (Mini.tostring
              (Example.elem "job" None
                 (Example.elem "title" (Some "Engineer"%string) [] None
                    :: Example.kept
                    ++ [Example.elem "id" (Some "7"%string) [] None])
                 None)).
Proof. run. Qed.

(** * Further properties of the code *)

(** ** The declaration pattern and the trimming, line 16 *)

Module DeclFacts.

Lemma literal_sound p k :
  forall s n,
    Re.literal p k s = Some n ->
    exists rest m, s = p ++ rest /\ k rest = Some m /\ n = List.length p + m.
Proof.
  induction p as [|c p IH]; intros s n H; simpl in H.
  - exists s, n. auto.
  - destruct s as [|x s]; [discriminate|].
    destruct (N.eqb_spec x c) as [->|]; [|discriminate].
    destruct (Re.literal p k s) as [n'|] eqn:E; [|discriminate].
    injection H as <-.
    destruct (IH _ _ E) as (rest & m & -> & Hk & ->).
    exists rest, m. auto.
Qed.

Lemma literal_complete p k rest m :
  k rest = Some m -> Re.literal p k (p ++ rest) = Some (List.length p + m).
Proof.
  intros Hk. induction p as [|c p IH]; simpl; [exact Hk|].
  now rewrite N.eqb_refl, IH.
Qed.

Lemma plus_not_sound c k :
  forall s n,
    Re.plus_not c k s = Some n ->
    exists body rest m,
      s = body ++ rest /\ body <> [] /\ Forall (fun x => x <> c) body
      /\ k rest = Some m /\ n = List.length body + m.
Proof.
  induction s as [|x s IH]; intros n H; simpl in H; [discriminate|].
  destruct (N.eqb_spec x c) as [|Hx]; [discriminate|].
  destruct (Re.plus_not c k s) as [n'|] eqn:E.
  - injection H as <-.
    destruct (IH _ eq_refl) as (body & rest & m & -> & _ & Hb & Hk & ->).
    exists (x :: body), rest, m. repeat split; auto. discriminate.
  - destruct (k s) as [m|] eqn:Hk; [|discriminate].
    injection H as <-.
    exists [x], s, m. repeat split; auto. discriminate.
Qed.

Definition closing : Re.matcher := Re.literal (lit "?>") Re.finish.

Lemma plus_not_closing rest : Re.plus_not 62%N closing (lit "?>" ++ rest) = None.
Proof. reflexivity. Qed.

Lemma plus_not_complete body rest :
  body <> [] -> Forall (fun x => x <> 62%N) body ->
  Re.plus_not 62%N closing (body ++ lit "?>" ++ rest)
  = Some (List.length body + 2).
Proof.
  induction body as [|x body IH]; intros Hne Hall; [contradiction|].
  inversion Hall as [|? ? Hx Hall']; subst.
  cbn [app Re.plus_not]. destruct (N.eqb_spec x 62%N) as [|_]; [contradiction|].
  destruct body as [|y body].
  - cbn [app]. rewrite plus_not_closing. reflexivity.
  - rewrite IH by (auto; discriminate). reflexivity.
Qed.

Lemma starts_with_app p rest : starts_with p (p ++ rest) = true.
Proof.
  induction p as [|c p IH]; simpl; [reflexivity|].
  now rewrite N.eqb_refl.
Qed.

Lemma match_starts s n :
  Re.xml_decl s = Some n -> starts_with (lit "<?xml") s = true.
Proof.
  intros H. apply literal_sound in H as (rest & m & -> & _).
  apply starts_with_app.
Qed.

Lemma absent_without_opening s :
  contains (lit "<?xml") s = false -> Re.occurs Re.xml_decl s = false.
Proof.
  induction s as [|x s IH]; intros H.
  - reflexivity.
  - cbn [contains] in H. apply orb_false_iff in H as [H1 H2].
    cbn [Re.occurs]. destruct (Re.xml_decl (x :: s)) as [n|] eqn:E.
    + apply match_starts in E. congruence.
    + auto.
Qed.

Lemma no_match_off_bracket x s : x <> 60%N -> Re.xml_decl (x :: s) = None.
Proof.
  intros Hx. unfold Re.xml_decl.
  replace (lit "<?xml") with [60; 63; 120; 109; 108]%N by reflexivity.
  cbn [Re.literal]. now destruct (N.eqb_spec x 60%N).
Qed.

Lemma sub_keeps_plain_text a s :
  Forall (fun x => x <> 60%N) a ->
  Re.sub Re.xml_decl (a ++ s) = a ++ Re.sub Re.xml_decl s.
Proof.
  unfold Re.sub. induction 1 as [|x a Hx _ IH]; [reflexivity|].
  cbn [app Re.sub_from]. rewrite (no_match_off_bracket x (a ++ s) Hx).
  now rewrite IH.
Qed.

Lemma lstrip_head s c t : lstrip s = c :: t -> isspace c = false.
Proof.
  induction s as [|x s IH]; simpl; [discriminate|].
  destruct (isspace x) eqn:E; [exact IH|].
  intros [= <- _]. exact E.
Qed.

Lemma lstrip_keeps_last u c :
  isspace c = false -> exists v, lstrip (u ++ [c]) = v ++ [c].
Proof.
  intros Hc. induction u as [|x u IH]; simpl.
  - rewrite Hc. now exists [].
  - destruct (isspace x); [exact IH|]. now exists (x :: u).
Qed.

Lemma lstrip_nil s : lstrip s = [] <-> forallb isspace s = true.
Proof.
  induction s as [|x s IH]; simpl; [tauto|].
  destruct (isspace x); simpl; [exact IH|]. split; discriminate.
Qed.

Lemma strip_nil s : strip s = [] <-> forallb isspace s = true.
Proof.
  unfold strip, rstrip. rewrite <- lstrip_nil. split.
  - intros H. apply (f_equal (@rev char)) in H.
    rewrite rev_involutive in H. simpl in H.
    destruct (lstrip s) as [|c t] eqn:E; [reflexivity|].
    apply lstrip_nil in H. rewrite forallb_forall in H.
    pose proof (lstrip_head _ _ _ E) as Hc.
    rewrite (H c) in Hc; [discriminate|].
    apply in_rev. rewrite rev_involutive. now left.
  - intros ->. reflexivity.
Qed.

Lemma forallb_existsb {A} (f : A -> bool) l :
  forallb f l = negb (existsb (fun x => negb (f x)) l).
Proof.
  induction l as [|x l IH]; simpl; [reflexivity|].
  rewrite IH. now destruct (f x).
Qed.

End DeclFacts.

(** X1.  The pattern matches at the head of a text exactly when the text
    is [<?xml], then one or more characters other than [>], then [?>]; the
    match is that much of the text and no more. *)
Theorem declaration_match_shape s n :
  Re.xml_decl s = Some n <->
  exists body rest,
    s = lit "<?xml" ++ body ++ lit "?>" ++ rest
    /\ body <> []
    /\ Forall (fun c => c <> 62%N) body
    /\ n = 7 + List.length body.
Proof.
  split.
  - intros H. unfold Re.xml_decl in H.
    apply DeclFacts.literal_sound in H as (r1 & m1 & -> & H & ->).
    apply DeclFacts.plus_not_sound in H as (body & r2 & m2 & -> & Hne & Hall & H & ->).
    apply DeclFacts.literal_sound in H as (rest & m3 & -> & H & ->).
    injection H as <-.
    exists body, rest. repeat split; auto.
    change (List.length (lit "<?xml")) with 5.
    change (List.length (lit "?>")) with 2. lia.
  - intros (body & rest & -> & Hne & Hall & ->).
    unfold Re.xml_decl.
    rewrite (DeclFacts.literal_complete (lit "<?xml") _ _ (List.length body + 2)).
    + change (List.length (lit "<?xml")) with 5. f_equal. lia.
    + now apply DeclFacts.plus_not_complete.
Qed.

Lemma declaration_match_shape_witness :
  Re.xml_decl (lit "<?xml version='1.0'?><a/>") = Some 21.
Proof.
  apply (proj2 (declaration_match_shape (lit "<?xml version='1.0'?><a/>") 21)).
  exists (lit " version='1.0'"), (lit "<a/>").
  split; [reflexivity|]. split; [discriminate|]. split; [|reflexivity].
  repeat constructor; discriminate.
Defined.

(** X2.  A text in which [<?xml] does not occur is only trimmed. *)
Theorem text_without_declaration_is_trimmed s :
  contains (lit "<?xml") s = false -> remove_declaration s = strip s.
Proof.
  intros H. unfold remove_declaration.
  now rewrite ReFacts.sub_absent by now apply DeclFacts.absent_without_opening.
Qed.

Lemma text_without_declaration_is_trimmed_witness :
  remove_declaration (lit "  <a>x</a> ") = strip (lit "  <a>x</a> ").
Proof.
  apply text_without_declaration_is_trimmed. vm_compute. reflexivity.
Defined.

(** X3.  The pattern is looked for all along the text: a declaration that
    comes after text without [<], such as spaces or a byte order mark, is
    removed as one at the very start is, and that text stays. *)
Theorem declaration_after_plain_text_is_removed a s n :
  Forall (fun c => c <> 60%N) a ->
  Re.xml_decl s = Some n ->
  Re.occurs Re.xml_decl (skipn n s) = false ->
  remove_declaration (a ++ s) = strip (a ++ skipn n s).
Proof.
  intros Ha Hm Hrest. unfold remove_declaration.
  rewrite (DeclFacts.sub_keeps_plain_text a s Ha).
  rewrite (ReFacts.sub_leading _ _ _ Hm).
  now rewrite ReFacts.sub_absent.
Qed.

Lemma declaration_after_plain_text_is_removed_witness :
  remove_declaration (lit "x <?xml version='1.0'?><a/>") = lit "x <a/>".
Proof.
  refine (declaration_after_plain_text_is_removed
            (lit "x ") (lit "<?xml version='1.0'?><a/>") 21 _ _ _).
  - repeat constructor; discriminate.
  - vm_compute. reflexivity.
  - vm_compute. reflexivity.
Defined.

(** X4.  What is handed to the recovering parser neither begins nor ends
    with a whitespace character. *)
Theorem cleaned_text_has_no_outer_whitespace s :
  (forall c t, remove_declaration s = c :: t -> isspace c = false)
  /\ (forall t c, remove_declaration s = t ++ [c] -> isspace c = false).
Proof.
  unfold remove_declaration, strip, rstrip.
  set (l := lstrip (Re.sub Re.xml_decl s)).
  assert (Hl : forall c t, l = c :: t -> isspace c = false)
    by (intros c t E; exact (DeclFacts.lstrip_head _ _ _ E)).
  split.
  - intros c t H. destruct l as [|c' l'] eqn:E; [discriminate|].
    specialize (Hl c' l' eq_refl).
    cbn [rev] in H.
    destruct (DeclFacts.lstrip_keeps_last (rev l') c' Hl) as [v Hv].
    rewrite Hv, rev_app_distr in H. cbn [rev app] in H.
    injection H as <- _. exact Hl.
  - intros t c H. apply (f_equal (@rev char)) in H.
    rewrite rev_involutive, rev_app_distr in H. cbn [rev app] in H.
    exact (DeclFacts.lstrip_head _ _ _ H).
Qed.

Lemma cleaned_text_has_no_outer_whitespace_witness :
  isspace 60%N = false /\ isspace 62%N = false.
Proof.
  split.
  - refine (proj1 (cleaned_text_has_no_outer_whitespace
                     (lit " <?xml version='1.0'?> <a>x</a> "))
                  60%N (lit "a>x</a>") _).
    vm_compute. reflexivity.
  - refine (proj2 (cleaned_text_has_no_outer_whitespace
                     (lit " <?xml version='1.0'?> <a>x</a> "))
                  (lit "<a>x</a") 62%N _).
    vm_compute. reflexivity.
Defined.

(** X5.  The filter of line 65 keeps an element exactly when its direct
    text has a character that is not whitespace. *)
Theorem content_means_a_visible_character e :
  has_content e = true <->
  exists t, text e = Some t /\ existsb (fun c => negb (isspace c)) t = true.
Proof.
  unfold has_content. destruct (text e) as [t|].
  - assert (E : truthy t && truthy (strip t)
                = existsb (fun c => negb (isspace c)) t).
    { destruct (strip t) as [|c u] eqn:Hs.
      - rewrite andb_false_r. apply DeclFacts.strip_nil in Hs.
        rewrite DeclFacts.forallb_existsb in Hs.
        now destruct (existsb _ t).
      - assert (Hn : forallb isspace t <> true)
          by (intros Hf; apply DeclFacts.strip_nil in Hf; congruence).
        rewrite DeclFacts.forallb_existsb in Hn.
        destruct t as [|x t]; [discriminate|].
        cbn [truthy andb]. now destruct (existsb _ (x :: t)). }
    rewrite E. split.
    + intros H. now exists t.
    + now intros (t' & [= <-] & H).
  - split; [discriminate|]. now intros (t & [=] & _).
Qed.

Lemma content_means_a_visible_character_witness :
  has_content (Node (lit "task") [] (Some (lit " a ")) [] None) = true.
Proof.
  apply (proj2 (content_means_a_visible_character
                  (Node (lit "task") [] (Some (lit " a ")) [] None))).
  exists (lit " a "). split; reflexivity.
Defined.

(** ** What the splice leaves alone, lines 61-67 *)

Module FrameFacts.

Lemma nth_error_map_nth_other {A} i j (f : A -> A) l :
  i <> j -> nth_error (map_nth i f l) j = nth_error l j.
Proof.
  revert i j; induction l as [|x l IH]; intros [|i] [|j] H; simpl;
    try reflexivity; try contradiction.
  apply IH. congruence.
Qed.

Lemma length_map_nth {A} i (f : A -> A) l :
  List.length (map_nth i f l) = List.length l.
Proof.
  revert i; induction l as [|x l IH]; intros [|i]; simpl; auto.
Qed.

Lemma is_prefix_nil q : is_prefix q [] = true -> q = [].
Proof. destruct q; [reflexivity|discriminate]. Qed.

(** Off the way to the parent nothing changes. *)
Lemma set_children_elsewhere pp f :
  forall t q,
    is_prefix pp q = false -> is_prefix q pp = false ->
    get (set_children_at pp f t) q = get t q.
Proof.
  induction pp as [|i pp IH]; intros t q H1 H2; [discriminate|].
  destruct q as [|j q]; [discriminate|].
  cbn [is_prefix] in H1, H2. cbn [set_children_at get children with_children].
  destruct (Nat.eqb_spec i j) as [->|Hij].
  - rewrite Nat.eqb_refl in H2. cbn [andb] in H1, H2.
    rewrite TreeFacts.nth_error_map_nth.
    destruct (nth_error (children t) j) as [c|]; [|reflexivity].
    cbn [option_map]. now apply IH.
  - now rewrite nth_error_map_nth_other.
Qed.

(** On the way to the parent a node keeps all but its children, and their
    number. *)
Lemma set_children_above pp f :
  forall t q n,
    is_prefix q pp = true -> get t q = Some n ->
    exists n',
      get (set_children_at pp f t) q = Some n'
      /\ tag n' = tag n /\ attrib n' = attrib n
      /\ text n' = text n /\ tail n' = tail n
      /\ (q <> pp -> List.length (children n') = List.length (children n)).
Proof.
  induction pp as [|i pp IH]; intros t q n Hq Hn.
  - apply is_prefix_nil in Hq. subst q. injection Hn as <-.
    eexists. split; [reflexivity|]. repeat split. contradiction.
  - destruct q as [|j q].
    + injection Hn as <-. eexists. split; [reflexivity|].
      repeat split. intros _. apply length_map_nth.
    + cbn [is_prefix] in Hq. apply andb_true_iff in Hq as [Hj Hq].
      apply Nat.eqb_eq in Hj. subst j.
      cbn [set_children_at get children with_children] in *.
      rewrite TreeFacts.nth_error_map_nth.
      destruct (nth_error (children t) i) as [c|]; [|discriminate].
      cbn [option_map].
      destruct (IH c q n Hq Hn) as (n' & Hg & Ht & Ha & Hx & Hl & Hc).
      exists n'. repeat split; auto. intros Hne. apply Hc. congruence.
Qed.

End FrameFacts.

Section SplitFacts.

Variable fromstring_recover : str -> recovered.
Variable fromstring : str -> option node.
Variable xpath : node -> str -> option xpath_value.
Variable tostring : node -> str.
Variable post : str -> reply.

(** X6.  A successful split changes the child list of the target's parent
    and nothing else: the nodes off the way from the root to the parent are
    what they were, and the parent and its ancestors keep their tag,
    attributes, text and tail, the ancestors also the number of their
    children. *)
Theorem split_leaves_the_rest_of_the_tree
  node_path root pp i target rest s split_root :
  xpath root node_path = Some (XItems (XElem (pp ++ [i]) target :: rest)) ->
  ask_codellama post (build_prompt (tag target) (content_of (text target)))
  = Some s ->
  parse_response fromstring s = Return split_root ->
  exists root',
    split_in_tree fromstring xpath post node_path root = (Return tt, root')
    /\ (forall q, is_prefix pp q = false -> is_prefix q pp = false ->
                  get root' q = get root q)
    /\ (forall q n,
           is_prefix q pp = true -> get root q = Some n ->
           exists n',
             get root' q = Some n'
             /\ tag n' = tag n /\ attrib n' = attrib n
             /\ text n' = text n /\ tail n' = tail n
             /\ (q <> pp ->
                 List.length (children n') = List.length (children n))).
Proof.
  intros Hx Hask Hparse.
  assert (Hrun := split_node_spliced fromstring post root pp i target s
                    split_root Hask Hparse).
  rewrite <- (split_in_tree_located fromstring xpath post _ _ _
                (locate_first xpath _ _ _ _ Hx)) in Hrun.
  eexists. split; [exact Hrun|split].
  - intros q H1 H2. now apply FrameFacts.set_children_elsewhere.
  - intros q n Hq Hn. now apply FrameFacts.set_children_above.
Qed.

(** X7.  When no element of the response has content (an empty response,
    plain prose, blank tags), the split still succeeds: the target is
    removed and nothing is put in its place. *)
Theorem response_without_content_deletes_the_node
  xml_content node_path root pp i parent target rest s split_root :
  fromstring_recover (remove_declaration xml_content) = Recovered root ->
  xpath root node_path = Some (XItems (XElem (pp ++ [i]) target :: rest)) ->
  get root pp = Some parent ->
  nth_error (children parent) i = Some target ->
  ask_codellama post (build_prompt (tag target) (content_of (text target)))
  = Some s ->
  parse_response fromstring s = Return split_root ->
  filter has_content (children split_root) = [] ->
  exists root',
    split_xml_node fromstring_recover fromstring xpath tostring post
                   xml_content node_path
    = Return (tostring root')
    /\ get root' pp
       = Some (with_children parent (remove_nth i (children parent))).
Proof.
  intros Hdoc Hx Hparent Htarget Hask Hparse Hnone.
  assert (Hi : i < List.length (children parent))
    by (apply nth_error_Some; congruence).
  assert (Hrun := split_node_spliced fromstring post root pp i target s
                    split_root Hask Hparse).
  rewrite <- (split_in_tree_located fromstring xpath post _ _ _
                (locate_first xpath _ _ _ _ Hx)) in Hrun.
  rewrite Hnone in Hrun.
  eexists. split.
  - rewrite (split_xml_node_parsed fromstring_recover fromstring xpath
               tostring post _ node_path _ Hdoc), Hrun. reflexivity.
  - rewrite (spliced_parent root pp i parent [] Hparent Hi). reflexivity.
Qed.

(** X8.  When the request fails, or the reply has no ["response"] entry,
    the split fails with the no-response exception; the strict parser is not
    consulted and the tree is as it was parsed. *)
Theorem silent_gateway_fails_the_split
  xml_content node_path root x tg tx :
  fromstring_recover (remove_declaration xml_content) = Recovered root ->
  locate xpath root node_path = Return x ->
  tag_and_text x = Return (tg, tx) ->
  post (build_prompt tg (content_of tx)) = RequestException
  \/ post (build_prompt tg (content_of tx)) = Json None ->
  forall parser,
    split_in_tree parser xpath post node_path root = (Raise no_response, root)
    /\ split_xml_node fromstring_recover parser xpath tostring post
                      xml_content node_path
       = Raise no_response.
Proof.
  intros Hdoc Hx Htt Hpost parser.
  assert (Hask : ask_codellama post (build_prompt tg (content_of tx)) = None)
    by (unfold ask_codellama; destruct Hpost as [-> | ->]; reflexivity).
  assert (Hrun : split_in_tree parser xpath post node_path root
                 = (Raise no_response, root)).
  { rewrite (split_in_tree_located parser xpath post _ _ _ Hx).
    unfold split_node, bind, lift. rewrite Htt. simpl. now rewrite Hask. }
  split; [exact Hrun|].
  now rewrite (split_xml_node_parsed fromstring_recover parser xpath
                 tostring post _ node_path _ Hdoc), Hrun.
Qed.

(** X9.  When the expression gives no node to read a text from (it is
    rejected, selects nothing, or evaluates to strings or a number), the
    split fails before the endpoint is asked: the failure is the same
    whatever the endpoint and the strict parser would answer. *)
Theorem early_failure_ignores_the_gateway xml_content node_path root :
  fromstring_recover (remove_declaration xml_content) = Recovered root ->
  (forall x, locate xpath root node_path = Return x -> x = XOther) ->
  exists e,
    forall parser endpoint,
      split_xml_node fromstring_recover parser xpath tostring endpoint
                     xml_content node_path
      = Raise e.
Proof.
  intros Hdoc Hx.
  destruct (locate xpath root node_path) as [x|e] eqn:Hl.
  - rewrite (Hx x eq_refl) in Hl. exists AttributeError.
    intros parser endpoint.
    rewrite (split_xml_node_parsed fromstring_recover parser xpath
               tostring endpoint _ node_path _ Hdoc).
    now rewrite (split_in_tree_located parser xpath endpoint _ _ _ Hl).
  - exists e. intros parser endpoint.
    rewrite (split_xml_node_parsed fromstring_recover parser xpath
               tostring endpoint _ node_path _ Hdoc).
    unfold split_in_tree, bind, read, lift. now rewrite Hl.
Qed.

(** X10.  Of the target only the tag and the direct text are used: two
    documents that differ in nothing but the attributes, children and tail
    of the target (and in a text that is absent in one and empty in the
    other) give the same outcome and, when the split succeeds, the same
    tree. *)
Theorem only_tag_and_text_of_the_target_count pp i t1 t2 r1 r2 :
  tag t1 = tag t2 ->
  content_of (text t1) = content_of (text t2) ->
  set_children_at pp (remove_nth i) r1 = set_children_at pp (remove_nth i) r2 ->
  fst (split_node fromstring post (XElem (pp ++ [i]) t1) r1)
  = fst (split_node fromstring post (XElem (pp ++ [i]) t2) r2)
  /\ (fst (split_node fromstring post (XElem (pp ++ [i]) t1) r1) = Return tt ->
      snd (split_node fromstring post (XElem (pp ++ [i]) t1) r1)
      = snd (split_node fromstring post (XElem (pp ++ [i]) t2) r2)).
Proof.
  intros Htag Htext Hrest.
  unfold split_node, bind, lift, modify. simpl.
  rewrite Htag, Htext.
  destruct (ask_codellama post _) as [s|]; [|split; [reflexivity|discriminate]].
  destruct (parse_response fromstring s) as [split_root|e];
    [|split; [reflexivity|discriminate]].
  rewrite TreeFacts.split_last_app. simpl. rewrite Hrest.
  split; reflexivity.
Qed.

End SplitFacts.

(** ** Further concrete inputs *)

Module Nested.

Local Open Scope string_scope.

Definition job : node :=
  Example.elem "job" None
    [ Example.elem "title" (Some "Engineer") [] None;
      Example.elem "description" (Some "Build it. Good pay.") [] None ]
    None.

Definition jobs : node :=
  Example.elem "jobs" None [ Example.elem "meta" (Some "m") [] None; job ] None.

Definition xml : str :=
  lit "<jobs><meta>m</meta><job><title>Engineer</title><description>Build it. Good pay.</description></job></jobs>".

Definition description : node :=
  Example.elem "description" (Some "Build it. Good pay.") [] None.

(** The same description with an attribute, a child and a tail. *)
Definition rich_description : node :=
  Node (lit "description") [(lit "lang", lit "en")]
       (Some (lit "Build it. Good pay."))
       [ Example.elem "b" (Some "now") [] None ]
       (Some (lit " soon ")).

Definition rich_jobs : node :=
  Example.elem "jobs" None
    [ Example.elem "meta" (Some "m") [] None;
      Example.elem "job" None
        [ Example.elem "title" (Some "Engineer") [] None; rich_description ]
        None ]
    None.

(** A reply without a ["response"] entry, and one of plain prose. *)
Definition keyless : str -> reply := fun _ => Json None.
Definition prose : str -> reply :=
  fun _ => Json (Some (lit "I cannot split this text.")).

Definition prose_root : node :=
  Example.elem "root" (Some "I cannot split this text.") [] None.

End Nested.

Lemma split_leaves_the_rest_of_the_tree_witness :
  exists root',
    Example.run_in_tree Example.answers (lit "//description") Nested.jobs
    = (Return tt, root')
    /\ get root' [0] = get Nested.jobs [0]
    /\ exists n',
         get root' [] = Some n' /\ tag n' = lit "jobs"
         /\ List.length (children n') = 2.
Proof.
  destruct (split_leaves_the_rest_of_the_tree
              Mini.fromstring Mini.xpath Example.answers
              (lit "//description") Nested.jobs [1] 1 Nested.description []
              Example.response Example.split_root
              ltac:(vm_compute; reflexivity) ltac:(vm_compute; reflexivity)
              ltac:(vm_compute; reflexivity))
    as (root' & Hrun & Hoff & Hup).
  exists root'. split; [exact Hrun|]. split.
  - exact (Hoff [0] eq_refl eq_refl).
  - destruct (Hup [] Nested.jobs eq_refl eq_refl)
      as (n' & Hg & Ht & _ & _ & _ & Hlen).
    exists n'. split; [exact Hg|]. split; [exact Ht|].
    apply Hlen. discriminate.
Defined.

Lemma response_without_content_deletes_the_node_witness :
  exists root',
    Example.run Nested.prose Nested.xml (lit "//description")
    = Return (Mini.tostring root')
    /\ get root' [1]
       = Some (with_children Nested.job
                 (remove_nth 1 (children Nested.job))).
Proof.
  refine (response_without_content_deletes_the_node
            Mini.fromstring_recover Mini.fromstring Mini.xpath Mini.tostring
            Nested.prose Nested.xml (lit "//description")
            Nested.jobs [1] 1 Nested.job Nested.description []
            (lit "I cannot split this text.") Nested.prose_root
            _ _ _ _ _ _ _); run.
Defined.

Lemma silent_gateway_fails_the_split_witness :
  (Example.run_in_tree Example.down (lit "//description") Nested.jobs
   = (Raise no_response, Nested.jobs)
   /\ Example.run Example.down Nested.xml (lit "//description")
      = Raise no_response)
  /\ (Example.run_in_tree Nested.keyless (lit "//description") Nested.jobs
      = (Raise no_response, Nested.jobs)
      /\ Example.run Nested.keyless Nested.xml (lit "//description")
         = Raise no_response).
Proof.
  split.
  - refine (silent_gateway_fails_the_split
              Mini.fromstring_recover Mini.xpath Mini.tostring Example.down
              Nested.xml (lit "//description") Nested.jobs
              (XElem [1; 1] Nested.description)
              (tag Nested.description) (text Nested.description)
              _ _ _ (or_introl _) Mini.fromstring); run.
  - refine (silent_gateway_fails_the_split
              Mini.fromstring_recover Mini.xpath Mini.tostring Nested.keyless
              Nested.xml (lit "//description") Nested.jobs
              (XElem [1; 1] Nested.description)
              (tag Nested.description) (text Nested.description)
              _ _ _ (or_intror _) Mini.fromstring); run.
Defined.

Lemma early_failure_ignores_the_gateway_witness :
  exists e,
    forall parser endpoint,
      split_xml_node Mini.fromstring_recover parser Mini.xpath Mini.tostring
                     endpoint Nested.xml (lit "//salary")
      = Raise e.
Proof.
  refine (early_failure_ignores_the_gateway
            Mini.fromstring_recover Mini.xpath Mini.tostring
            Nested.xml (lit "//salary") Nested.jobs _ _).
  - run.
  - vm_compute. discriminate.
Defined.

Lemma only_tag_and_text_of_the_target_count_witness :
  fst (split_node Mini.fromstring Example.answers
                  (XElem [1; 1] Nested.rich_description) Nested.rich_jobs)
  = fst (split_node Mini.fromstring Example.answers
                    (XElem [1; 1] Nested.description) Nested.jobs)
  /\ (fst (split_node Mini.fromstring Example.answers
                      (XElem [1; 1] Nested.rich_description) Nested.rich_jobs)
      = Return tt ->
      snd (split_node Mini.fromstring Example.answers
                      (XElem [1; 1] Nested.rich_description) Nested.rich_jobs)
      = snd (split_node Mini.fromstring Example.answers
                        (XElem [1; 1] Nested.description) Nested.jobs)).
Proof.
  refine (only_tag_and_text_of_the_target_count
            Mini.fromstring Example.answers [1] 1
            Nested.rich_description Nested.description
            Nested.rich_jobs Nested.jobs _ _ _); run.
Defined.

(** ** The ids of the stored records, line 138 *)

Module IdFacts.

Lemma lit_cons c s : lit (String c s) = N_of_ascii c :: lit s.
Proof. reflexivity. Qed.

Lemma lit_inj s s' : lit s = lit s' -> s = s'.
Proof.
  revert s'; induction s as [|c s IH]; intros [|c' s'] H;
    try reflexivity; try discriminate.
  rewrite !lit_cons in H. injection H as Hc Hs.
  apply (f_equal ascii_of_N) in Hc. rewrite !ascii_N_embedding in Hc.
  now rewrite Hc, (IH _ Hs).
Qed.

Lemma digits_no_underscore d :
  Forall (fun c => c <> 95%N)
         (lit (DecimalString.NilEmpty.string_of_uint d)).
Proof.
  induction d; cbn [DecimalString.NilEmpty.string_of_uint];
    [constructor|..]; rewrite lit_cons; (constructor; [discriminate|exact IHd]).
Qed.

Lemma decimal_no_underscore n : Forall (fun c => c <> 95%N) (decimal n).
Proof. apply digits_no_underscore. Qed.

Lemma decimal_inj n m : decimal n = decimal m -> n = m.
Proof.
  unfold decimal. intros H. apply lit_inj in H.
  apply DecimalNat.Unsigned.to_uint_inj.
  apply (f_equal DecimalString.NilEmpty.uint_of_string) in H.
  rewrite !DecimalString.NilEmpty.usu in H. now injection H.
Qed.

(** Two texts cut at the first occurrence of [x] are cut alike. *)
Lemma first_separator {A} (x : A) d d' a a' :
  Forall (fun c => c <> x) d -> Forall (fun c => c <> x) d' ->
  d ++ x :: a = d' ++ x :: a' -> d = d' /\ a = a'.
Proof.
  intros Hd. revert d'. induction Hd as [|c d Hc _ IH]; intros d' Hd' H.
  - destruct Hd' as [|c' d' Hc' _]; simpl in H.
    + injection H as ->. auto.
    + injection H as E _. congruence.
  - destruct Hd' as [|c' d' Hc' Hd']; simpl in H.
    + injection H as E _. congruence.
    + injection H as -> H. destruct (IH _ Hd' H) as [-> ->]. auto.
Qed.

Lemma last_separator {A} (x : A) a a' d d' :
  Forall (fun c => c <> x) d -> Forall (fun c => c <> x) d' ->
  a ++ x :: d = a' ++ x :: d' -> a = a' /\ d = d'.
Proof.
  intros Hd Hd' H. apply (f_equal (@rev A)) in H.
  rewrite !rev_app_distr in H. cbn [rev] in H. rewrite <- !app_assoc in H.
  cbn [app] in H.
  apply first_separator in H as [H1 H2];
    try (apply Forall_rev; assumption).
  apply (f_equal (@rev A)) in H1, H2. rewrite !rev_involutive in H1, H2.
  auto.
Qed.

Lemma record_id_count p n p' n' :
  record_id p n = record_id p' n' -> n = n'.
Proof.
  unfold record_id. change (lit "_") with [95%N]. cbn [app]. intros H.
  apply last_separator in H as [_ H]; try apply decimal_no_underscore.
  now apply decimal_inj.
Qed.

End IdFacts.

(** X11.  The id of a record tells the path expression and the count it
    was made from: different pairs never give the same id. *)
Theorem record_id_is_injective p n p' n' :
  record_id p n = record_id p' n' -> p = p' /\ n = n'.
Proof.
  unfold record_id. change (lit "_") with [95%N]. cbn [app]. intros H.
  apply IdFacts.last_separator in H as [-> H];
    try apply IdFacts.decimal_no_underscore.
  split; [reflexivity|now apply IdFacts.decimal_inj].
Qed.

Lemma record_id_is_injective_witness :
  lit "//a_1" = lit "//a_1" /\ 0 = 0.
Proof.
  apply (record_id_is_injective (lit "//a_1") 0 (lit "//a_1") 0).
  reflexivity.
Defined.

Section StoreFacts.

Variable fromstring_recover : str -> recovered.
Variable fromstring : str -> option node.
Variable xpath : node -> str -> option xpath_value.
Variable tostring : node -> str.
Variable collection : Type.
Variable ids : collection -> list str.
Variable add : collection -> str -> str -> str * str -> collection.

(** What is asked of the collection: an [add] leaves the ids as they were,
    or with the one id more. *)
Definition adds_at_most_one_id : Prop :=
  forall c i d m,
    ids (add c i d m) = ids c
    \/ (List.length (ids (add c i d m)) = S (List.length (ids c))
        /\ forall x, In x (ids (add c i d m)) <-> x = i \/ In x (ids c)).

Definition numbered (c : collection) : Prop :=
  forall x, In x (ids c) ->
            exists p j, x = record_id p j /\ j < List.length (ids c).

Lemma numbered_fresh c node_path :
  numbered c -> ~ In (record_id node_path (List.length (ids c))) (ids c).
Proof.
  intros Hnum Hin. destruct (Hnum _ Hin) as (p & j & E & Hj).
  apply IdFacts.record_id_count in E. lia.
Qed.

(** X12.  In a collection filled by the application from an empty one, the
    ids are pairwise different, each ends in a count below the number of
    records, and the id the next record would get is not in use. *)
Theorem stored_ids_never_collide c :
  adds_at_most_one_id ->
  reachable fromstring_recover fromstring xpath tostring ids add c ->
  NoDup (ids c)
  /\ numbered c
  /\ forall node_path,
      ~ In (record_id node_path (List.length (ids c))) (ids c).
Proof.
  intros Hadd Hreach.
  assert (H : NoDup (ids c) /\ numbered c).
  { induction Hreach as [c Hc|post xml_content node_path c _ [Hnd Hnum]].
    - unfold numbered. rewrite Hc. split; [constructor|intros x []].
    - unfold split_clicked.
      destruct (truthy xml_content && truthy node_path); [|now split].
      destruct (split_xml_node _ _ _ _ _ _ _) as [new_xml|e]; [|now split].
      set (i := record_id node_path (List.length (ids c))).
      destruct (Hadd c i new_xml (xml_content, node_path)) as [E|[Hlen Hin]].
      + unfold numbered. rewrite E. now split.
      + split.
        * apply (@NoDup_incl_NoDup _ (i :: ids c)).
          -- constructor; [now apply numbered_fresh|exact Hnd].
          -- simpl. lia.
          -- intros x Hx. apply Hin. destruct Hx as [<-|Hx]; auto.
        * intros x Hx. apply Hin in Hx as [->|Hx].
          -- exists node_path, (List.length (ids c)). split; [reflexivity|lia].
          -- destruct (Hnum x Hx) as (p & j & -> & Hj).
             exists p, j. split; [reflexivity|lia]. }
  destruct H as [Hnd Hnum]. repeat split; auto.
  intros node_path. now apply numbered_fresh.
Qed.

End StoreFacts.

(** A collection as a list of records, newest last. *)
Module ListStore.

Definition collection : Type := list (str * str * (str * str)).
Definition ids (c : collection) : list str := map (fun r => fst (fst r)) c.
Definition add (c : collection) (i d : str) (m : str * str) : collection :=
  c ++ [(i, d, m)].

Lemma add_appends : adds_at_most_one_id collection ids add.
Proof.
  intros c i d m. right. unfold ids, add. rewrite map_app, length_app.
  split; [simpl; lia|].
  intros x. rewrite in_app_iff. simpl. intuition congruence.
Qed.

Definition click :=
  split_clicked Mini.fromstring_recover Mini.fromstring Mini.xpath
                Mini.tostring ids add.

(** Two splits of the same document with the same expression, and a failed
    one in between. *)
Definition after_three_clicks : collection :=
  click Example.answers Example.xml (lit "//description")
    (click Example.broken Example.xml (lit "//description")
       (click Example.answers Example.xml (lit "//description") [])).

End ListStore.

Lemma stored_ids_never_collide_witness :
  NoDup (ListStore.ids ListStore.after_three_clicks)
  /\ numbered ListStore.collection ListStore.ids ListStore.after_three_clicks
  /\ forall node_path,
      ~ In (record_id node_path
              (List.length (ListStore.ids ListStore.after_three_clicks)))
           (ListStore.ids ListStore.after_three_clicks).
Proof.
  refine (stored_ids_never_collide
            Mini.fromstring_recover Mini.fromstring Mini.xpath Mini.tostring
            ListStore.collection ListStore.ids ListStore.add
            ListStore.after_three_clicks ListStore.add_appends _).
  unfold ListStore.after_three_clicks, ListStore.click.
  repeat apply reach_click. now apply reach_empty.
Defined.

Example ids_after_three_clicks :
  ListStore.ids ListStore.after_three_clicks
  = [lit "//description_0"; lit "//description_1"].
Proof. run. Qed.
